(** * RemoveAnythingVideo: the video mask-propagation pipeline

    A shallow embedding of [remove_anything_video.py]: the mask selection
    policy, the segmentor set/predict/reset protocol, the key-frame stage and
    the propagation loop of [RemoveAnythingVideo.forward], together with the
    properties the pipeline's description states about them.

    Conventions.
    - A NumPy raster of shape (H, W) is a list of H rows of W pixels; a batch
      of shape (N, H, W) is a list of N rasters.
    - Integer dtypes are [Z] with their wrap-around written out; float64
      values are exact rationals plus NaN.
    - Python exceptions are values of [exn]; a computation that may raise
      returns an [outcome].
    - The three pretrained models and the frame loader are parameters of the
      development; every call to them is recorded in the world's call log. *)

From Stdlib Require Import ZArith QArith Lia.
From stdpp Require Import gmap strings list fin_maps.

Local Open Scope Z_scope.

(** ** Exceptions and outcomes *)

Inductive exn : Type :=
  | AssertionError (msg : string)
  | NotImplementedError
  | IndexError
  | ValueError
  | RuntimeError
  | ExternalError (who : string).

Inductive outcome (A : Type) : Type :=
  | Ret (a : A)
  | Raise (e : exn).
Arguments Ret {A} a.
Arguments Raise {A} e.

#[global] Instance outcome_ret : MRet outcome := fun A a => Ret a.
#[global] Instance outcome_bind : MBind outcome := fun A B f m =>
  match m with
  | Ret a => f a
  | Raise e => Raise e
  end.

Abbreviation Raster A := (list (list A)) (only parsing).
(** A mask after binarization: dtype uint8. *)
Abbreviation Mask := (list (list Z)) (only parsing).
(** A segmentor output mask: dtype bool. *)
Abbreviation BoolMask := (list (list bool)) (only parsing).
(** A frame: H x W pixels, each pixel the list of its channel values. *)
Abbreviation Image := (list (list (list Z))) (only parsing).
(** A box as four integers, read (x, y, w, h) or (x1, y1, x2, y2). *)
Abbreviation Box := (Z * Z * Z * Z)%type (only parsing).

(** ** The NumPy operations the pipeline uses *)

Module Np.

(** Two's-complement wrap-around of a 32-bit signed integer. *)
Definition wrap32 (z : Z) : Z := (z + 2 ^ 31) mod 2 ^ 32 - 2 ^ 31.

(** [.astype(np.uint8)] on an integer value. *)
Definition astype_uint8 (z : Z) : Z := z mod 256.

(** [.astype(np.int32)], per element dtype. *)
Class NpInt (A : Type) := astype_int32 : A -> Z.
#[global] Instance bool_NpInt : NpInt bool := Z.b2z.
#[global] Instance Z_NpInt : NpInt Z := wrap32.

(** float64: the rationals stand for the finite values. *)
Inductive float64 : Type :=
  | Fin (q : Q)
  | NaN.

Definition isnan (x : float64) : bool :=
  match x with NaN => true | Fin _ => false end.

Definition Qltb (x y : Q) : bool := negb (Qle_bool y x).

(** [x >= y] on float64: false as soon as one side is NaN. *)
Definition float_ge (x y : float64) : bool :=
  match x, y with
  | Fin a, Fin b => Qle_bool b a
  | _, _ => false
  end.

(** Broadcasting of one axis: equal lengths pair up, a length-1 axis is
    stretched, anything else is a shape error. *)
Definition broadcast {A B C} (f : A -> B -> C)
    (xs : list A) (ys : list B) : option (list C) :=
  if decide (length xs = length ys) then Some (zip_with f xs ys)
  else match xs, ys with
       | [x], _ => Some (map (f x) ys)
       | _, [y] => Some (map (fun x => f x y) xs)
       | _, _ => None
       end.

(** Broadcasting of the two trailing axes (rows, then columns). *)
Definition broadcast2 {A B C} (f : A -> B -> C)
    (a : Raster A) (b : Raster B) : option (Raster C) :=
  rows ← broadcast (broadcast f) a b; mapM id rows.

Definition sumZ (l : list Z) : Z := foldr Z.add 0 l.

(** [np.mean(r, axis=(-2, -1))] of one integer raster; the mean of an empty
    raster is NaN. *)
Definition mean (r : Raster Z) : float64 :=
  let px := concat r in
  if decide (length px = 0%nat) then NaN
  else Fin (sumZ px # Pos.of_nat (length px)).

(** The element [(a - b) ** 2] of an int32 array expression. *)
Definition sq_err (a b : Z) : Z := wrap32 (wrap32 (a - b) ^ 2).

(** [np.mean((masks.astype(np.int32) - ref_mask.astype(np.int32))**2,
    axis=(-2, -1))]: one float64 per candidate of the batch. *)
Definition mse {A} `{NpInt A} (masks : list (Raster A)) (ref_mask : Mask)
    : outcome (list float64) :=
  match mapM (fun m => broadcast2
                (fun a b => sq_err (astype_int32 a) (astype_int32 b))
                m ref_mask) masks with
  | Some d => Ret (mean <$> d)
  | None => Raise ValueError
  end.

(** [ndarray.argmin()] on a 1-d float64 array: the first occurrence of the
    minimum, a NaN counting as the minimum. *)
Fixpoint argmin_loop (mp : float64) (min_ind i : nat) (ip : list float64)
    : nat :=
  match ip with
  | [] => min_ind
  | x :: ip' =>
      if isnan mp then min_ind
      else if negb (float_ge x mp) then argmin_loop x i (S i) ip'
      else argmin_loop mp min_ind (S i) ip'
  end.

Definition argmin (ip : list float64) : outcome nat :=
  match ip with
  | [] => Raise ValueError
  | x :: ip' => Ret (argmin_loop x 0 1 ip')
  end.

(** [ndarray.argmax()] on a 1-d array of scores: the first occurrence of
    the maximum. *)
Fixpoint argmax_loop (mp : Q) (max_ind i : nat) (ip : list Q) : nat :=
  match ip with
  | [] => max_ind
  | x :: ip' =>
      if Qltb mp x then argmax_loop x i (S i) ip'
      else argmax_loop mp max_ind (S i) ip'
  end.

Definition argmax (ip : list Q) : outcome nat :=
  match ip with
  | [] => Raise ValueError
  | x :: ip' => Ret (argmax_loop x 0 1 ip')
  end.

(** [a[i]] on the first axis, with Python's negative indices. *)
Definition getitem {A} (a : list A) (i : Z) : outcome A :=
  let n := Z.of_nat (length a) in
  let j := if decide (i < 0) then i + n else i in
  if decide (0 <= j < n) then
    match a !! Z.to_nat j with
    | Some x => Ret x
    | None => Raise IndexError
    end
  else Raise IndexError.

End Np.

(** ** Mask selection policy *)

(** [RemoveAnythingVideo.mask_selection(masks, scores, ref_mask, interactive)]. *)
Definition mask_selection {A} `{Np.NpInt A}
    (masks : list (Raster A)) (scores : list Q)
    (ref_mask : option Mask) (interactive : bool) : outcome (Raster A) :=
  if interactive then Raise NotImplementedError
  else
    idx ← match ref_mask with
          | Some ref_mask => mse ← Np.mse masks ref_mask; Np.argmin mse
          | None => Np.argmax scores
          end;
    Np.getitem masks (Z.of_nat idx).

(** ** Utilities of the repository *)

(** [(mask * 255).astype(np.uint8)] on a boolean raster: the product is an
    int64 array, the cast keeps its low byte. *)
Definition binarize (mask : BoolMask) : Mask :=
  map (map (fun b : bool => Np.astype_uint8 (Z.b2z b * 255))) mask.

(** The pixel of a raster at row [y], column [x], if inside. *)
Definition pixel (mask : Mask) (y x : Z) : option Z :=
  if decide (0 <= y /\ 0 <= x) then
    row ← mask !! Z.to_nat y; row !! Z.to_nat x
  else None.

(** The coordinates a window of size [k] covers around the centre [c], the
    anchor being the middle cell [k / 2]. *)
Definition window (k c : Z) : list Z :=
  (fun d => c + d - k / 2) <$> seqZ 0 k.

Definition dilate_pixel (mask : Mask) (k y x : Z) : Z :=
  foldr Z.max 0
    (omap (fun p : Z * Z => pixel mask p.1 p.2)
          (y' ← window k y; x' ← window k x; [(y', x')])).

(** Modelled from the spec: [utils.dilate_mask] is not among the sources.
    Dilation is the morphological expansion of the mask's foreground by a
    structuring element of the given kernel size: a [k] x [k] square, so an
    output pixel is the largest input pixel under the square centred on it
    (cells outside the raster do not count). *)
Definition dilate_square (mask : Mask) (k : Z) : Mask :=
  imap (fun y row =>
    imap (fun x _ => dilate_pixel mask k (Z.of_nat y) (Z.of_nat x)) row) mask.

(** Modelled from the spec: [dilate_mask(mask, dilate_factor)] of utils
    dilates by the square of the given size when the size is positive; a
    size that is not positive disables the dilation, so the mask comes back
    as it is. *)
Definition dilate (mask : Mask) (k : Z) : outcome Mask :=
  if decide (0 < k) then Ret (dilate_square mask k) else Ret mask.

(** [cv2.boundingRect(mask)]: the smallest upright rectangle (x, y, w, h)
    enclosing the non-zero pixels, (0, 0, 0, 0) when there is none. *)
Definition nonzero_points (mask : Mask) : list (Z * Z) :=
  concat (imap (fun y row =>
            omap id (imap (fun x v =>
              if decide (v = 0) then None
              else Some (Z.of_nat x, Z.of_nat y)) row)) mask).

Definition boundingRect (mask : Mask) : Box :=
  match nonzero_points mask with
  | [] => (0, 0, 0, 0)
  | (x0, y0) :: pts =>
      let x1 := foldr Z.min x0 (pts.*1) in
      let x2 := foldr Z.max x0 (pts.*1) in
      let y1 := foldr Z.min y0 (pts.*2) in
      let y2 := foldr Z.max y0 (pts.*2) in
      (x1, y1, x2 - x1 + 1, y2 - y1 + 1)
  end.

(** [RemoveAnythingVideo.get_box_from_mask(mask)]. *)
Definition get_box_from_mask (mask : Mask) : Box := boundingRect mask.

(** The [# XYWH -> XYXY] conversion of the propagation loop:
    [x, y, w, h = box; sam_box = np.array([x, y, x + w, y + h])]. *)
Definition sam_box_of (box : Box) : Box :=
  let '(x, y, w, h) := box in (x, y, x + w, y + h).

(** ** The world the pipeline runs in *)

(** The keyword arguments of [SamPredictor.predict]. *)
Record Prompt : Type := mkPrompt {
  point_coords : option (list (Z * Z));
  point_labels : option (list Z);
  box : option Box;
  mask_input : option (Raster Q);
  multimask_output : bool;
  return_logits : bool
}.

(** The calls that leave the pipeline controller. *)
Inductive call : Type :=
  | CallLoad (img_p : string)
  | CallSetImage (img : Image)
  | CallPredict (pr : Prompt)
  | CallResetImage
  | CallTracker (frames_ps : list string) (init_box : Box)
  | CallInpaint (img : Image) (mask : Mask)
  | CallDilate (mask : Mask) (k : Z)
  | CallSave (mask : Mask) (img_p : string).

Record world : Type := mkWorld {
  sam_image : option Image;      (* the image held in the segmentor's context *)
  files : gmap string Mask;      (* the image files written so far *)
  calls : list call              (* the calls made so far, oldest first *)
}.

Definition log (c : call) (w : world) : world :=
  {| sam_image := sam_image w; files := files w; calls := calls w ++ [c] |}.

(** A computation of the controller: it may raise, and changes the world
    either way. *)
Definition M (A : Type) : Type := world -> outcome A * world.

#[global] Instance M_ret : MRet M := fun A a w => (Ret a, w).
#[global] Instance M_bind : MBind M := fun A B f m w =>
  match m w with
  | (Ret a, w') => f a w'
  | (Raise e, w') => (Raise e, w')
  end.

Definition lift {A} (o : outcome A) : M A := fun w => (o, w).

(** [assert cond, msg]. *)
Definition py_assert (cond : bool) (msg : string) : M unit :=
  lift (if cond then Ret () else Raise (AssertionError msg)).

(** The dilation calls of a call log, in order. *)
Definition dilations (cs : list call) : list (Mask * Z) :=
  omap (fun c => match c with CallDilate m k => Some (m, k) | _ => None end) cs.

(** The box prompts given to the segmentor in a call log, in order. *)
Definition box_prompts (cs : list call) : list Box :=
  omap (fun c => match c with CallPredict pr => box pr | _ => None end) cs.

(** ** The pipeline controller *)

Section Pipeline.

(** Modelled from the spec: [utils.load_img_to_array] is not among the
    sources. A frame is an in-memory raster identified by its source
    path and read-only once loaded; the function below is the content of
    the frame files. *)
Variable load_img : string -> outcome Image.

(** The segmentation model behind [SamPredictor.predict]: candidate masks
    (boolean) and their confidence scores for the image in context and a
    prompt. The logits, third component of the result, are dropped by the
    only caller. *)
Variable sam_predict : Image -> Prompt -> outcome (list BoolMask * list Q).

(** The tracker behind [ostrack.get_box_using_ostrack]: one (x, y, w, h)
    box per frame from the frame paths and the box on the first frame. *)
Variable get_box_using_ostrack : list string -> Box -> outcome (list Box).

(** The inpainting model behind [inpaint_img_with_builded_lama]. *)
Variable lama : Image -> Mask -> outcome Image.

Definition load_img_to_array (img_p : string) : M Image :=
  fun w => (load_img img_p, log (CallLoad img_p) w).

(** Modelled from the spec: [utils.save_array_to_img] is not among the
    sources; it persists a mask as the image file of the given name. *)
Definition save_array_to_img (mask : Mask) (img_p : string) : M unit :=
  fun w => (Ret (),
            {| sam_image := sam_image w;
               files := <[img_p := mask]> (files w);
               calls := calls w ++ [CallSave mask img_p] |}).

(** [utils.dilate_mask(mask, dilate_factor)] as a call of the controller;
    its result is [dilate]. *)
Definition dilate_mask (mask : Mask) (k : Z) : M Mask :=
  fun w => (dilate mask k, log (CallDilate mask k) w).

(** Modelled from the spec: the segmentor holds one image in context
    between a set-image call and a predict call, and releases it on
    reset. *)
Definition set_image (img : Image) : M unit :=
  fun w => (Ret (),
            {| sam_image := Some img; files := files w;
               calls := calls w ++ [CallSetImage img] |}).

Definition predict (pr : Prompt) : M (list BoolMask * list Q) :=
  fun w => (match sam_image w with
            | Some img => sam_predict img pr
            | None => Raise RuntimeError
            end, log (CallPredict pr) w).

Definition reset_image : M unit :=
  fun w => (Ret (),
            {| sam_image := None; files := files w;
               calls := calls w ++ [CallResetImage] |}).

(** [RemoveAnythingVideo.forward_tracker(frames_ps, init_box)]. The float32
    cast of the initial box belongs to the adapter. *)
Definition forward_tracker (frames_ps : list string) (init_box : Box)
    : M (list Box) :=
  fun w => (get_box_using_ostrack frames_ps init_box,
            log (CallTracker frames_ps init_box) w).

(** [RemoveAnythingVideo.forward_segmentor(img, point_coords, point_labels,
    box, mask_input, multimask_output, return_logits)]. *)
Definition forward_segmentor (img : Image)
    (point_coords : option (list (Z * Z))) (point_labels : option (list Z))
    (box : option Box) (mask_input : option (Raster Q))
    (multimask_output return_logits : bool)
    : M (list BoolMask * list Q) :=
  set_image img;;
  '(masks, scores) ← predict
      (mkPrompt point_coords point_labels box mask_input
                multimask_output return_logits);
  reset_image;;
  mret (masks, scores).

(** [RemoveAnythingVideo.forward_inpainter(img, mask)]. *)
Definition forward_inpainter (img : Image) (mask : Mask) : M Image :=
  fun w => (lama img mask, log (CallInpaint img mask) w).

(** [if dilate_kernel_size is not None: mask = dilate_mask(mask, ...)]. *)
Definition dilate_if_set (dilate_kernel_size : option Z) (mask : Mask)
    : M Mask :=
  match dilate_kernel_size with
  | Some k => dilate_mask mask k
  | None => mret mask
  end.

(** The loop [for frame_p, box in zip(frame_ps[1:], all_box[1:])] of
    [forward], with its three loop-carried variables. *)
Fixpoint propagate (dilate_kernel_size : option Z) (ref_mask : Mask)
    (all_mask : list Mask) (all_frame : list Image)
    (todo : list (string * Box)) : M (list Mask * list Image) :=
  match todo with
  | [] => mret (all_mask, all_frame)
  | (frame_p, box) :: todo' =>
      frame ← load_img_to_array frame_p;
      let sam_box := sam_box_of box in
      '(masks, scores) ← forward_segmentor frame None None (Some sam_box)
                                            None true false;
      let masks := binarize <$> masks in
      mask ← lift (mask_selection masks scores (Some ref_mask) false);
      mask ← dilate_if_set dilate_kernel_size mask;
      propagate dilate_kernel_size mask
                (all_mask ++ [mask]) (all_frame ++ [frame]) todo'
  end.

(** The key-frame stage of [forward], its lines from the assertion to the
    dilation of the selected key-frame mask; it yields the key frame and its
    mask. [forward] below repeats these lines and goes on. *)
Definition key_frame_stage (frame_ps : list string) (key_frame_idx : Z)
    (key_frame_point_coords : list (Z * Z))
    (key_frame_point_labels : list Z)
    (key_frame_mask_idx : option Z) (dilate_kernel_size : option Z)
    : M (Image * Mask) :=
  py_assert (bool_decide (key_frame_idx = 0))
            "Only support key frame at the beginning.";;
  key_frame_p ← lift (Np.getitem frame_ps key_frame_idx);
  key_frame ← load_img_to_array key_frame_p;
  '(key_masks, key_scores) ← forward_segmentor key_frame
      (Some key_frame_point_coords) (Some key_frame_point_labels)
      None None true false;
  key_mask ← lift (match key_frame_mask_idx with
                   | Some i => Np.getitem key_masks i
                   | None => mask_selection key_masks key_scores None false
                   end);
  let key_mask := binarize key_mask in
  key_mask ← dilate_if_set dilate_kernel_size key_mask;
  mret (key_frame, key_mask).

(** [RemoveAnythingVideo.forward(frame_ps, key_frame_idx,
    key_frame_point_coords, key_frame_point_labels, key_frame_mask_idx,
    dilate_kernel_size)], every argument given. *)
Definition forward (frame_ps : list string) (key_frame_idx : Z)
    (key_frame_point_coords : list (Z * Z))
    (key_frame_point_labels : list Z)
    (key_frame_mask_idx : option Z) (dilate_kernel_size : option Z)
    : M (list Image * list Mask * list Box) :=
  py_assert (bool_decide (key_frame_idx = 0))
            "Only support key frame at the beginning.";;
  key_frame_p ← lift (Np.getitem frame_ps key_frame_idx);
  key_frame ← load_img_to_array key_frame_p;
  '(key_masks, key_scores) ← forward_segmentor key_frame
      (Some key_frame_point_coords) (Some key_frame_point_labels)
      None None true false;
  key_mask ← lift (match key_frame_mask_idx with
                   | Some i => Np.getitem key_masks i
                   | None => mask_selection key_masks key_scores None false
                   end);
  let key_mask := binarize key_mask in
  key_mask ← dilate_if_set dilate_kernel_size key_mask;
  save_array_to_img key_mask "mask.png";;
  let key_box := get_box_from_mask key_mask in
  all_box ← forward_tracker frame_ps key_box;
  '(all_mask, all_frame) ←
      propagate dilate_kernel_size key_mask [key_mask] [key_frame]
                (zip (drop 1 frame_ps) (drop 1 all_box));
  mret (all_frame, all_mask, all_box).



End Pipeline.

(** ** The vocabulary of the properties *)

(** A raster of shape (H, W). *)
Definition has_shape {A} (H W : nat) (r : Raster A) : Prop :=
  length r = H /\ Forall (fun row => length row = W) r.

(** A raster whose pixels, cast to int32, are 8-bit values: what the cast
    yields on the bool and uint8 arrays the pipeline passes around. *)
Definition eight_bit {A} `{Np.NpInt A} (r : Raster A) : Prop :=
  Forall (Forall (fun p => 0 <= Np.astype_int32 p <= 255)) r.

(** A mask whose pixels are 0 or 255. *)
Definition binary (mask : Mask) : Prop :=
  Forall (Forall (fun v => v = 0 \/ v = 255)) mask.

(** The score of the selection policy as the description words it: the mean,
    over the pixels, of the squared difference between candidate and
    reference, both cast to integers. *)
Definition sq_diff_sum {A} `{Np.NpInt A} (m : Raster A) (ref_mask : Mask) : Z :=
  Np.sumZ (concat (zip_with (zip_with
    (fun a b => (Np.astype_int32 a - Np.astype_int32 b) ^ 2)) m ref_mask)).

Definition mean_sq_diff {A} `{Np.NpInt A} (m : Raster A) (ref_mask : Mask) : Q :=
  sq_diff_sum m ref_mask # Pos.of_nat (length (concat m)).

(** ** Runs of the pipeline, described step by step *)

(** The selected mask after [if dilate_kernel_size is not None: ...]. *)
Definition dilated (dilate_kernel_size : option Z) (mask : Mask)
    : outcome Mask :=
  match dilate_kernel_size with
  | Some k => dilate mask k
  | None => Ret mask
  end.

(** The prompt of the key frame and the prompt of a propagated frame. *)
Definition point_prompt (coords : list (Z * Z)) (labels : list Z) : Prompt :=
  mkPrompt (Some coords) (Some labels) None None true false.

Definition box_prompt (b : Box) : Prompt :=
  mkPrompt None None (Some b) None true false.

(** What one iteration of the propagation loop reads and produces. *)
Record step : Type := mkStep {
  st_frame_p : string;         (* the frame path *)
  st_box : Box;                (* the tracked box, (x, y, w, h) *)
  st_frame : Image;            (* the frame loaded *)
  st_cands : list BoolMask;    (* the candidates of the segmentor *)
  st_scores : list Q;          (* their scores *)
  st_sel : Mask;               (* the candidate selected, binarized *)
  st_mask : Mask               (* the mask recorded for the frame *)
}.

Definition st_todo (st : step) : string * Box := (st_frame_p st, st_box st).

Definition segment_calls (img : Image) (pr : Prompt) : list call :=
  [CallSetImage img; CallPredict pr; CallResetImage].

Definition dilate_calls (dilate_kernel_size : option Z) (sel : Mask)
    : list call :=
  match dilate_kernel_size with
  | Some k => [CallDilate sel k]
  | None => []
  end.

Definition step_calls (dilate_kernel_size : option Z) (st : step) : list call :=
  CallLoad (st_frame_p st)
  :: segment_calls (st_frame st) (box_prompt (sam_box_of (st_box st)))
  ++ dilate_calls dilate_kernel_size (st_sel st).

(** The world after the iterations [sts], started in [w]. *)
Definition after_steps (dilate_kernel_size : option Z) (sts : list step)
    (w : world) : world :=
  {| sam_image := match sts with [] => sam_image w | _ => None end;
     files := files w;
     calls := calls w ++ concat (step_calls dilate_kernel_size <$> sts) |}.

Section Runs.

Variable load_img : string -> outcome Image.
Variable sam_predict : Image -> Prompt -> outcome (list BoolMask * list Q).

(** An iteration that runs to its end with [ref_mask] as reference. *)
Definition step_ok (dilate_kernel_size : option Z) (ref_mask : Mask)
    (st : step) : Prop :=
  load_img (st_frame_p st) = Ret (st_frame st) /\
  sam_predict (st_frame st) (box_prompt (sam_box_of (st_box st)))
    = Ret (st_cands st, st_scores st) /\
  mask_selection (binarize <$> st_cands st) (st_scores st)
                 (Some ref_mask) false = Ret (st_sel st) /\
  dilated dilate_kernel_size (st_sel st) = Ret (st_mask st).

(** Iterations in a row, each taking the mask of the one before as its
    reference. *)
Fixpoint chained (dilate_kernel_size : option Z) (ref_mask : Mask)
    (sts : list step) : Prop :=
  match sts with
  | [] => True
  | st :: sts' =>
      step_ok dilate_kernel_size ref_mask st /\
      chained dilate_kernel_size (st_mask st) sts'
  end.

End Runs.

(** What a run of [forward] that returns has read and produced. *)
Record run : Type := mkRun {
  key_frame_p : string;          (* the path of the key frame *)
  key_frame : Image;             (* the key frame *)
  key_masks : list BoolMask;     (* the candidates on the key frame *)
  key_scores : list Q;           (* their scores *)
  key_sel : BoolMask;            (* the candidate selected *)
  key_mask : Mask;               (* the key-frame mask *)
  steps : list step              (* the iterations of the loop *)
}.

(** The selection on the key frame: the manual index if given, else the
    scoring by confidence. *)
Definition key_selection (key_frame_mask_idx : option Z)
    (key_masks : list BoolMask) (key_scores : list Q) : outcome BoolMask :=
  match key_frame_mask_idx with
  | Some i => Np.getitem key_masks i
  | None => mask_selection key_masks key_scores None false
  end.

Definition key_stage_calls (coords : list (Z * Z)) (labels : list Z)
    (dilate_kernel_size : option Z) (r : run) : list call :=
  CallLoad (key_frame_p r)
  :: segment_calls (key_frame r) (point_prompt coords labels)
  ++ dilate_calls dilate_kernel_size (binarize (key_sel r)).

Definition run_calls (frame_ps : list string) (coords : list (Z * Z))
    (labels : list Z) (dilate_kernel_size : option Z) (r : run) : list call :=
  key_stage_calls coords labels dilate_kernel_size r
  ++ [CallSave (key_mask r) "mask.png";
      CallTracker frame_ps (get_box_from_mask (key_mask r))]
  ++ concat (step_calls dilate_kernel_size <$> steps r).

Definition run_frames (r : run) : list Image :=
  key_frame r :: (st_frame <$> steps r).

Definition run_masks (r : run) : list Mask :=
  key_mask r :: (st_mask <$> steps r).

Section RunOk.

Variable load_img : string -> outcome Image.
Variable sam_predict : Image -> Prompt -> outcome (list BoolMask * list Q).
Variable get_box_using_ostrack : list string -> Box -> outcome (list Box).

(** The key-frame stage ran to its end. *)
Definition key_stage_ok (frame_ps : list string) (coords : list (Z * Z))
    (labels : list Z) (key_frame_mask_idx dilate_kernel_size : option Z)
    (r : run) : Prop :=
  frame_ps !! 0%nat = Some (key_frame_p r) /\
  load_img (key_frame_p r) = Ret (key_frame r) /\
  sam_predict (key_frame r) (point_prompt coords labels)
    = Ret (key_masks r, key_scores r) /\
  key_selection key_frame_mask_idx (key_masks r) (key_scores r)
    = Ret (key_sel r) /\
  dilated dilate_kernel_size (binarize (key_sel r)) = Ret (key_mask r).

(** The whole run ran to its end and returned the boxes [all_box]. *)
Definition run_ok (frame_ps : list string) (coords : list (Z * Z))
    (labels : list Z) (key_frame_mask_idx dilate_kernel_size : option Z)
    (all_box : list Box) (r : run) : Prop :=
  key_stage_ok frame_ps coords labels key_frame_mask_idx
               dilate_kernel_size r /\
  get_box_using_ostrack frame_ps (get_box_from_mask (key_mask r))
    = Ret all_box /\
  st_todo <$> steps r = zip (drop 1 frame_ps) (drop 1 all_box) /\
  chained load_img sam_predict dilate_kernel_size (key_mask r) (steps r).

End RunOk.

(** The mask after the optional dilation, for a kernel size that is
    positive. *)
Definition dilation (dilate_kernel_size : option Z) (mask : Mask) : Mask :=
  match dilate_kernel_size with
  | Some k => dilate_square mask k
  | None => mask
  end.

(** ** A small world to run the pipeline in *)

Module Demo.

(** Three 2 x 2 RGB frames. *)
Definition frame (v : Z) : Image :=
  [[[v; v; v]; [v; v; v]]; [[v; v; v]; [v; v; v]]].

Definition paths : list string := ["0.jpg"; "1.jpg"; "2.jpg"].

Definition load (p : string) : outcome Image :=
  if decide (p = "0.jpg") then Ret (frame 10)
  else if decide (p = "1.jpg") then Ret (frame 20)
  else if decide (p = "2.jpg") then Ret (frame 30)
  else Raise (ExternalError "load_img_to_array").

Definition corner : BoolMask := [[true; false]; [false; false]].
Definition top : BoolMask := [[true; true]; [false; false]].
Definition full : BoolMask := [[true; true]; [true; true]].

(** A batch of binarized candidates with a repeated one, and scores with a
    repeated maximum. *)
Definition cands : list Mask := binarize <$> [full; top; corner; top].
Definition scores : list Q := [8 # 10; 9 # 10; 9 # 10]%Q.

(** Three candidates per prompt; a box prompt lists them in reverse. *)
Definition sam (img : Image) (pr : Prompt)
    : outcome (list BoolMask * list Q) :=
  match box pr with
  | None => Ret ([corner; top; full], [9 # 10; 8 # 10; 9 # 10]%Q)
  | Some _ => Ret ([full; top; corner], [1 # 2; 1 # 2; 1 # 2]%Q)
  end.

(** A segmentor whose prediction fails. *)
Definition sam_fails (img : Image) (pr : Prompt)
    : outcome (list BoolMask * list Q) :=
  Raise (ExternalError "predict").

(** A tracker whose box drifts one pixel to the right per frame. *)
Definition tracker (ps : list string) (b : Box) : outcome (list Box) :=
  Ret (imap (fun i _ => let '(x, y, w, h) := b in
                        (x + Z.of_nat i, y, w, h)) ps).

Definition w0 : world := {| sam_image := None; files := ∅; calls := [] |}.

Definition run_forward := forward load sam tracker.

(** A run with the manual index 0 and the kernel size 2, and what it
    returns. *)
Definition out : outcome (list Image * list Mask * list Box) * world :=
  run_forward paths 0 [(1, 1)] [1] (Some 0) (Some 2) w0.

Definition frames : list Image := [frame 10; frame 20; frame 30].
Definition masks : list Mask :=
  [binarize full; binarize full; binarize full].
Definition boxes : list Box := [(0, 0, 2, 2); (1, 0, 2, 2); (2, 0, 2, 2)].

(** The same run with the kernel sizes 0 and -1. *)
Definition out_zero : outcome (list Image * list Mask * list Box) * world :=
  run_forward paths 0 [(1, 1)] [1] (Some 0) (Some 0) w0.

Definition out_neg : outcome (list Image * list Mask * list Box) * world :=
  run_forward paths 0 [(1, 1)] [1] (Some 0) (Some (-1)) w0.

(** The same run without a kernel size, and what the three of them return:
    the selected candidates, binarized and no more, and the boxes tracked
    from the box around the first. *)
Definition out_none : outcome (list Image * list Mask * list Box) * world :=
  run_forward paths 0 [(1, 1)] [1] (Some 0) None w0.

Definition masks_plain : list Mask :=
  [binarize corner; binarize corner; binarize corner].
Definition boxes_plain : list Box :=
  [(0, 0, 1, 1); (1, 0, 1, 1); (2, 0, 1, 1)].

End Demo.

(** ** Construction of the pipeline object *)

(** The object [RemoveAnythingVideo.__init__] sets up: the three models it
    has built. *)
Record RemoveAnythingVideo : Type := mkRemoveAnythingVideo {
  tracker : list string -> Box -> outcome (list Box);
  segmentor : Image -> Prompt -> outcome (list BoolMask * list Q);
  inpainter : Image -> Mask -> outcome Image
}.

(** The calls of the constructor to the model builders, with the keyword
    arguments passed. *)
Inductive build_call : Type :=
  | BuildTracker (kwargs : gmap string string)
  | BuildSegmentor (kwargs : gmap string string)
  | BuildInpainter (kwargs : gmap string string).

(** A computation of the constructor: it may raise, and extends the list of
    builder calls either way. *)
Definition B (A : Type) : Type :=
  list build_call -> outcome A * list build_call.

#[global] Instance B_ret : MRet B := fun A a l => (Ret a, l).
#[global] Instance B_bind : MBind B := fun A B f m l =>
  match m l with
  | (Ret a, l') => f a l'
  | (Raise e, l') => (Raise e, l')
  end.

Definition lift_B {A} (o : outcome A) : B A := fun l => (o, l).

(** A call to a builder: its result, and the call recorded. *)
Definition built {A} (o : outcome A) (c : build_call) : B A :=
  fun l => (o, l ++ [c]).

(** The binding of [**kwargs] in a call [self.build_x(target, **kwargs)]: a
    key that names a positional parameter of the method is a [TypeError]
    (multiple values for the argument). *)
Definition bind_kwargs (kwargs : gmap string string)
    : outcome (gmap string string) :=
  if decide (is_Some (kwargs !! "target") \/ is_Some (kwargs !! "self"))
  then Raise (ExternalError "TypeError")
  else Ret kwargs.

(** The default build arguments of [__init__]. *)
Definition default_tracker_build_args : gmap string string :=
  {[ "tracker_param" := "vitb_384_mae_ce_32x4_ep300" ]}.

Definition default_segmentor_build_args : gmap string string :=
  <[ "model_type" := "vit_h" ]>
    {[ "ckpt_p" := "./pretrained_models/sam_vit_h_4b8939.pth" ]}.

Definition default_inpainter_build_args : gmap string string :=
  <[ "config_p" := "./lama/configs/prediction/default.yaml" ]>
    {[ "ckpt_p" := "./pretrained_models/big-lama" ]}.

Section Construction.

(** The builders of the three models, [ostrack.build_ostrack_model],
    [sam_segment.build_sam_model] and [lama_inpaint.build_lama_model]: each
    yields the model for its keyword arguments, or raises. *)
Variable build_ostrack_model :
  gmap string string -> outcome (list string -> Box -> outcome (list Box)).
Variable build_sam_model :
  gmap string string ->
  outcome (Image -> Prompt -> outcome (list BoolMask * list Q)).
Variable build_lama_model :
  gmap string string -> outcome (Image -> Mask -> outcome Image).

(** [RemoveAnythingVideo.build_tracker(target, **kwargs)]. *)
Definition build_tracker (target : string) (kwargs : gmap string string)
    : B (list string -> Box -> outcome (list Box)) :=
  kwargs ← lift_B (bind_kwargs kwargs);
  lift_B (if bool_decide (target = "ostrack") then Ret ()
          else Raise (AssertionError "Only support sam now."));;
  built (build_ostrack_model kwargs) (BuildTracker kwargs).

(** [RemoveAnythingVideo.build_segmentor(target, **kwargs)]. *)
Definition build_segmentor (target : string) (kwargs : gmap string string)
    : B (Image -> Prompt -> outcome (list BoolMask * list Q)) :=
  kwargs ← lift_B (bind_kwargs kwargs);
  lift_B (if bool_decide (target = "sam") then Ret ()
          else Raise (AssertionError "Only support sam now."));;
  built (build_sam_model kwargs) (BuildSegmentor kwargs).

(** [RemoveAnythingVideo.build_inpainter(target, **kwargs)]. *)
Definition build_inpainter (target : string) (kwargs : gmap string string)
    : B (Image -> Mask -> outcome Image) :=
  kwargs ← lift_B (bind_kwargs kwargs);
  lift_B (if bool_decide (target = "lama") then Ret ()
          else Raise (AssertionError "Only support lama now."));;
  built (build_lama_model kwargs) (BuildInpainter kwargs).

(** [RemoveAnythingVideo.__init__(tracker_target, tracker_build_args,
    segmentor_target, segmentor_build_args, inpainter_target,
    inpainter_build_args)]; a build-arguments dictionary that is [None] is
    replaced by its default. *)
Definition init (tracker_target : string)
    (tracker_build_args : option (gmap string string))
    (segmentor_target : string)
    (segmentor_build_args : option (gmap string string))
    (inpainter_target : string)
    (inpainter_build_args : option (gmap string string))
    : B RemoveAnythingVideo :=
  let tracker_build_args :=
    default default_tracker_build_args tracker_build_args in
  let segmentor_build_args :=
    default default_segmentor_build_args segmentor_build_args in
  let inpainter_build_args :=
    default default_inpainter_build_args inpainter_build_args in
  tracker ← build_tracker tracker_target tracker_build_args;
  segmentor ← build_segmentor segmentor_target segmentor_build_args;
  inpainter ← build_inpainter inpainter_target inpainter_build_args;
  mret (mkRemoveAnythingVideo tracker segmentor inpainter).

End Construction.

(** [model(frame_ps, ...)]: a call of the object runs [forward] with the
    models it holds. *)
Definition call_model (load_img : string -> outcome Image)
    (self : RemoveAnythingVideo) :=
  forward load_img (segmentor self) (tracker self).

(** ** Kinds of calls *)

Inductive call_kind : Type :=
  | KLoad | KSetImage | KPredict | KResetImage
  | KTracker | KInpaint | KDilate | KSave.

#[global] Instance call_kind_eq_dec : EqDecision call_kind.
Proof. solve_decision. Defined.

Definition kind_of (c : call) : call_kind :=
  match c with
  | CallLoad _ => KLoad
  | CallSetImage _ => KSetImage
  | CallPredict _ => KPredict
  | CallResetImage => KResetImage
  | CallTracker _ _ => KTracker
  | CallInpaint _ _ => KInpaint
  | CallDilate _ _ => KDilate
  | CallSave _ _ => KSave
  end.

(** The number of calls of one kind in a call log. *)
Definition count_kind (k : call_kind) (cs : list call) : nat :=
  length (filter (fun c => kind_of c = k) cs).

(** Two segmentors that give the same candidate masks, and fail alike, on
    every image and prompt; their scores may differ. *)
Definition same_masks
    (sam1 sam2 : Image -> Prompt -> outcome (list BoolMask * list Q)) : Prop :=
  forall img pr,
    match sam1 img pr, sam2 img pr with
    | Ret r1, Ret r2 => r1.1 = r2.1
    | Raise e1, Raise e2 => e1 = e2
    | _, _ => False
    end.

(** ** More of the small world *)

Module Demo2.

(** Builders that accept any keyword arguments. *)
Definition build_tracker_ok (kwargs : gmap string string) :=
  Ret Demo.tracker.
Definition build_sam_ok (kwargs : gmap string string) := Ret Demo.sam.
Definition lama (img : Image) (mask : Mask) : outcome Image := Ret img.
Definition build_lama_ok (kwargs : gmap string string) := Ret lama.

(** The object that these builders make. *)
Definition self : RemoveAnythingVideo :=
  mkRemoveAnythingVideo Demo.tracker Demo.sam lama.

(** The segmentor of the small world with other scores. *)
Definition sam_rescored (img : Image) (pr : Prompt)
    : outcome (list BoolMask * list Q) :=
  match Demo.sam img pr with
  | Ret (masks, scores) => Ret (masks, (fun _ => 0 # 1)%Q <$> scores)
  | Raise e => Raise e
  end.

(** A tracker that loses the last frame. *)
Definition tracker_short (ps : list string) (b : Box) : outcome (list Box) :=
  Ret (take 2 ((fun _ => b) <$> ps)).


(** A segmentor that fails on every box prompt. *)
Definition sam_fails_on_boxes (img : Image) (pr : Prompt)
    : outcome (list BoolMask * list Q) :=
  match box pr with
  | None => Demo.sam img pr
  | Some _ => Raise (ExternalError "predict")
  end.

(** The run of the small world with the tracker that loses the last
    frame. *)
Definition out_short : outcome (list Image * list Mask * list Box) * world :=
  forward Demo.load Demo.sam tracker_short Demo.paths 0 [(1, 1)] [1]
          (Some 0) (Some 2) Demo.w0.

Definition frames_short : list Image := [Demo.frame 10; Demo.frame 20].
Definition masks_short : list Mask := [binarize Demo.full; binarize Demo.full].
Definition boxes_short : list Box := [(0, 0, 2, 2); (0, 0, 2, 2)].

(** The run of the small world with neither manual index nor kernel
    size. *)
Definition out_auto : outcome (list Image * list Mask * list Box) * world :=
  Demo.run_forward Demo.paths 0 [(1, 1)] [1] None None Demo.w0.

Definition masks_auto : list Mask :=
  [binarize Demo.corner; binarize Demo.corner; binarize Demo.corner].
Definition boxes_auto : list Box := [(0, 0, 1, 1); (1, 0, 1, 1); (2, 0, 1, 1)].

(** A reference mask of three rows. *)
Definition tall : Mask := [[255; 0]; [0; 0]; [0; 0]].

End Demo2.

(** * Properties *)

(** ** NumPy operations *)

Section NpFacts.
Import Np.

Lemma wrap32_small (z : Z) : - 2 ^ 31 <= z < 2 ^ 31 -> wrap32 z = z.
Proof. intros Hz. unfold wrap32. rewrite Z.mod_small; lia. Qed.

Lemma sq_err_eight_bit (a b : Z) :
  0 <= a <= 255 -> 0 <= b <= 255 -> sq_err a b = (a - b) ^ 2.
Proof.
  intros Ha Hb. unfold sq_err.
  rewrite (wrap32_small (a - b)) by lia.
  apply wrap32_small. nia.
Qed.

Lemma Qltb_lt (x y : Q) : Qltb x y = true <-> (x < y)%Q.
Proof.
  unfold Qltb. rewrite negb_true_iff, <- not_true_iff_false, Qle_bool_iff.
  split; [apply Qnot_le_lt | apply Qlt_not_le].
Qed.

Lemma Qltb_ge (x y : Q) : Qltb x y = false <-> (y <= x)%Q.
Proof.
  unfold Qltb. rewrite negb_false_iff. apply Qle_bool_iff.
Qed.

Lemma getitem_nat {A} (a : list A) (i : nat) (x : A) :
  a !! i = Some x -> getitem a (Z.of_nat i) = Ret x.
Proof.
  intros Hi. pose proof (lookup_lt_Some _ _ _ Hi) as Hlt.
  unfold getitem. repeat case_decide; try lia.
  by rewrite Nat2Z.id, Hi.
Qed.

(** The scan of [argmax] keeps the first largest element seen so far. *)
Lemma argmax_loop_spec (ip pre : list Q) (mp : Q) (max_ind : nat) :
  pre !! max_ind = Some mp ->
  (forall j x, pre !! j = Some x -> (x <= mp)%Q) ->
  (forall j x, (j < max_ind)%nat -> pre !! j = Some x -> (x < mp)%Q) ->
  exists v, (pre ++ ip) !! argmax_loop mp max_ind (length pre) ip = Some v /\
    (forall j x, (pre ++ ip) !! j = Some x -> (x <= v)%Q) /\
    (forall j x, (j < argmax_loop mp max_ind (length pre) ip)%nat ->
                 (pre ++ ip) !! j = Some x -> (x < v)%Q).
Proof.
  revert pre mp max_ind.
  induction ip as [|x ip IH]; intros pre mp max_ind Hmp Hle Hlt; simpl.
  - rewrite app_nil_r. eauto.
  - pose proof (lookup_lt_Some _ _ _ Hmp) as Hin.
    replace (S (length pre)) with (length (pre ++ [x]))
      by (rewrite length_app; simpl; lia).
    rewrite (cons_middle x pre ip), (assoc_L (++)).
    destruct (Qltb mp x) eqn:Hcmp.
    + apply Qltb_lt in Hcmp. apply IH.
      * by rewrite lookup_app_r, Nat.sub_diag.
      * intros j y Hj. apply lookup_app_Some in Hj as [Hj|[_ Hj]].
        -- apply Qlt_le_weak. eapply Qle_lt_trans; [by eapply Hle | done].
        -- apply list_lookup_singleton_Some in Hj as [_ <-]. apply Qle_refl.
      * intros j y Hjlt Hj. rewrite lookup_app_l in Hj by done.
        eapply Qle_lt_trans; [by eapply Hle | done].
    + apply Qltb_ge in Hcmp. apply IH.
      * by rewrite lookup_app_l.
      * intros j y Hj. apply lookup_app_Some in Hj as [Hj|[_ Hj]].
        -- by eapply Hle.
        -- by apply list_lookup_singleton_Some in Hj as [_ <-].
      * intros j y Hjlt Hj. rewrite lookup_app_l in Hj by lia.
        by eapply Hlt.
Qed.

(** The scan of [argmin] on finite values keeps the first smallest element
    seen so far. *)
Lemma argmin_loop_spec (ip pre : list Q) (mp : Q) (min_ind : nat) :
  pre !! min_ind = Some mp ->
  (forall j x, pre !! j = Some x -> (mp <= x)%Q) ->
  (forall j x, (j < min_ind)%nat -> pre !! j = Some x -> (mp < x)%Q) ->
  exists v,
    (pre ++ ip) !! argmin_loop (Fin mp) min_ind (length pre) (Fin <$> ip)
      = Some v /\
    (forall j x, (pre ++ ip) !! j = Some x -> (v <= x)%Q) /\
    (forall j x,
       (j < argmin_loop (Fin mp) min_ind (length pre) (Fin <$> ip))%nat ->
       (pre ++ ip) !! j = Some x -> (v < x)%Q).
Proof.
  revert pre mp min_ind.
  induction ip as [|x ip IH]; intros pre mp min_ind Hmp Hle Hlt; simpl.
  - rewrite app_nil_r. eauto.
  - pose proof (lookup_lt_Some _ _ _ Hmp) as Hin.
    replace (S (length pre)) with (length (pre ++ [x]))
      by (rewrite length_app; simpl; lia).
    rewrite (cons_middle x pre ip), (assoc_L (++)).
    change (negb (Qle_bool mp x)) with (Qltb x mp).
    destruct (Qltb x mp) eqn:Hcmp.
    + apply Qltb_lt in Hcmp. apply IH.
      * by rewrite lookup_app_r, Nat.sub_diag.
      * intros j y Hj. apply lookup_app_Some in Hj as [Hj|[_ Hj]].
        -- apply Qlt_le_weak. eapply Qlt_le_trans; [done | by eapply Hle].
        -- apply list_lookup_singleton_Some in Hj as [_ <-]. apply Qle_refl.
      * intros j y Hjlt Hj. rewrite lookup_app_l in Hj by done.
        eapply Qlt_le_trans; [done | by eapply Hle].
    + apply Qltb_ge in Hcmp. apply IH.
      * by rewrite lookup_app_l.
      * intros j y Hj. apply lookup_app_Some in Hj as [Hj|[_ Hj]].
        -- by eapply Hle.
        -- by apply list_lookup_singleton_Some in Hj as [_ <-].
      * intros j y Hjlt Hj. rewrite lookup_app_l in Hj by lia.
        by eapply Hlt.
Qed.

End NpFacts.

(** ** Rasters of one shape *)

Lemma has_shape_cons {A} (H W : nat) (row : list A) (r : Raster A) :
    has_shape H W (row :: r) <->
    exists H', H = S H' /\ length row = W /\ has_shape H' W r.
  Proof.
    unfold has_shape. simpl. rewrite Forall_cons. split.
    - intros [<- [? ?]]. eauto.
    - intros (H' & -> & ? & <- & ?). auto.
  Qed.

Lemma has_shape_nil_inv {A} (H W : nat) :
  has_shape H W (@nil (list A)) -> H = 0%nat.
  Proof. by intros [<- _]. Qed.

Lemma length_concat_shape {A} (H W : nat) (r : Raster A) :
    has_shape H W r -> length (concat r) = (H * W)%nat.
  Proof.
    revert H. induction r as [|row r IH]; intros H Hs.
    - by rewrite (has_shape_nil_inv _ _ Hs).
    - apply has_shape_cons in Hs as (H' & -> & Hrow & Hs).
      simpl. rewrite length_app, (IH _ Hs). lia.
Qed.

Lemma broadcast_same_length {A B C} (f : A -> B -> C)
    (xs : list A) (ys : list B) :
  length xs = length ys -> Np.broadcast f xs ys = Some (zip_with f xs ys).
Proof. intros Hl. unfold Np.broadcast. by rewrite decide_True. Qed.

Section Shapes.
Import Np.
Context {A B C : Type}.

Lemma zip_with_shape (f : A -> B -> C) (H W : nat)
    (a : Raster A) (b : Raster B) :
  has_shape H W a -> has_shape H W b ->
  has_shape H W (zip_with (zip_with f) a b).
Proof.
  revert H b. induction a as [|ra a IH]; intros H b Ha Hb.
  - by rewrite (has_shape_nil_inv _ _ Ha).
  - apply has_shape_cons in Ha as (H' & -> & Hra & Ha).
    destruct b as [|rb b]; [by destruct Hb|].
    apply has_shape_cons in Hb as (H'' & [= <-] & Hrb & Hb).
    simpl. apply has_shape_cons. exists H'. split; [done|]. split.
    + rewrite length_zip_with. lia.
    + by apply IH.
Qed.

(** Two rasters of one shape are combined pixel by pixel. *)
Lemma broadcast2_same_shape (f : A -> B -> C) (H W : nat)
    (a : Raster A) (b : Raster B) :
  has_shape H W a -> has_shape H W b ->
  broadcast2 f a b = Some (zip_with (zip_with f) a b).
Proof.
  intros Ha Hb. unfold broadcast2.
  rewrite broadcast_same_length by (destruct Ha, Hb; congruence).
  simpl. apply mapM_Some.
  revert H b Ha Hb. induction a as [|ra a IH]; intros H b Ha Hb.
  - constructor.
  - apply has_shape_cons in Ha as (H' & -> & Hra & Ha).
    destruct b as [|rb b]; [by destruct Hb|].
    apply has_shape_cons in Hb as (H'' & [= <-] & Hrb & Hb).
    simpl. constructor; [|by eapply IH].
    apply broadcast_same_length. congruence.
Qed.

Lemma zip_with_ext_Forall (f g : A -> B -> C) (P : A -> Prop) (Q : B -> Prop)
    (xs : list A) (ys : list B) :
  (forall x y, P x -> Q y -> f x y = g x y) ->
  Forall P xs -> Forall Q ys -> zip_with f xs ys = zip_with g xs ys.
Proof.
  intros Hfg Hxs. revert ys.
  induction Hxs as [|x xs Hx Hxs IH]; intros ys Hys; [done|].
  destruct Hys as [|y ys Hy Hys]; [done|].
  simpl. by rewrite Hfg, IH.
Qed.

End Shapes.

(** ** The score the code computes is the score of the description *)

Section Score.
Import Np.
Context {A : Type} {A_int : NpInt A}.

Lemma sq_diff_sum_code (m : Raster A) (ref_mask : Mask) :
  eight_bit m -> eight_bit ref_mask ->
  sumZ (concat (zip_with (zip_with
    (fun (a : A) (b : Z) => sq_err (astype_int32 a) (astype_int32 b)))
    m ref_mask)) = sq_diff_sum m ref_mask.
Proof.
  intros Hm Hr. unfold sq_diff_sum. do 2 f_equal.
  eapply zip_with_ext_Forall; [|exact Hm|exact Hr].
  intros ra rb Hra Hrb.
  eapply zip_with_ext_Forall; [|exact Hra|exact Hrb].
  intros a b Ha Hb. simpl in Ha, Hb. by apply sq_err_eight_bit.
Qed.

Lemma mean_code (H W : nat) (m : Raster A) (ref_mask : Mask) :
  has_shape H W m -> has_shape H W ref_mask ->
  eight_bit m -> eight_bit ref_mask ->
  mean (zip_with (zip_with
    (fun (a : A) (b : Z) => sq_err (astype_int32 a) (astype_int32 b)))
    m ref_mask)
  = if decide ((H * W)%nat = 0%nat) then NaN
    else Fin (mean_sq_diff m ref_mask).
Proof.
  intros Hm Hr Em Er. unfold mean, mean_sq_diff.
  rewrite (length_concat_shape H W) by by apply zip_with_shape.
  rewrite (length_concat_shape H W m) by done.
  case_decide; [done|]. by rewrite sq_diff_sum_code.
Qed.

Lemma mse_same_shape (H W : nat) (masks : list (Raster A)) (ref_mask : Mask) :
  Forall (has_shape H W) masks -> has_shape H W ref_mask ->
  Forall eight_bit masks -> eight_bit ref_mask ->
  mse masks ref_mask
  = Ret ((fun m => if decide ((H * W)%nat = 0%nat) then NaN
                   else Fin (mean_sq_diff m ref_mask)) <$> masks).
Proof.
  intros Hms Hr Ems Er. unfold mse.
  assert (mapM (fun m : Raster A => broadcast2
            (fun (a : A) (b : Z) => sq_err (astype_int32 a) (astype_int32 b))
            m ref_mask) masks
          = Some ((fun m => zip_with (zip_with
              (fun (a : A) (b : Z) => sq_err (astype_int32 a) (astype_int32 b)))
              m ref_mask) <$> masks)) as ->.
  { apply mapM_Some. apply Forall2_fmap_r, Forall_Forall2_diag.
    eapply Forall_impl; [exact Hms|]. intros m Hm. simpl.
    by eapply broadcast2_same_shape. }
  f_equal. rewrite <- list_fmap_compose. apply Forall_fmap_ext.
  rewrite Forall_forall in Hms, Ems. apply Forall_forall. intros m Hin.
  simpl. by apply mean_code; auto.
Qed.

End Score.

(** ** Mask selection *)

Lemma mean_sq_diff_empty {A} {A_int : Np.NpInt A} (H W : nat)
    (m : Raster A) (ref_mask : Mask) :
  (H * W)%nat = 0%nat -> has_shape H W m -> has_shape H W ref_mask ->
  mean_sq_diff m ref_mask = (0 # 1)%Q.
Proof.
  intros H0 Hm Hr. unfold mean_sq_diff, sq_diff_sum.
  rewrite (length_concat_shape H W m), H0 by done.
  pose proof (length_concat_shape H W _
    (zip_with_shape (fun (a : A) (b : Z) =>
       (Np.astype_int32 a - Np.astype_int32 b) ^ 2) H W m ref_mask Hm Hr)) as Hl.
  rewrite H0 in Hl. apply nil_length_inv in Hl. by rewrite Hl.
Qed.

Lemma mask_selection_ref {A} {A_int : Np.NpInt A}
    (masks : list (Raster A)) (scores : list Q) (ref_mask : Mask)
    (l : list Np.float64) (idx : nat) (m : Raster A) :
  Np.mse masks ref_mask = Ret l -> Np.argmin l = Ret idx ->
  masks !! idx = Some m ->
  mask_selection masks scores (Some ref_mask) false = Ret m.
Proof.
  intros Hmse Harg Hm. unfold mask_selection. rewrite Hmse.
  cbn [mbind outcome_bind]. rewrite Harg. cbn [mbind outcome_bind].
  by apply getitem_nat.
Qed.

(** The selection with a reference mask: the first candidate of least mean
    squared difference, whatever the scores. *)
Lemma mask_selection_ref_spec {A} {A_int : Np.NpInt A} (H W : nat)
    (masks : list (Raster A)) (scores : list Q) (ref_mask : Mask) :
  masks <> [] ->
  Forall (has_shape H W) masks -> has_shape H W ref_mask ->
  Forall eight_bit masks -> eight_bit ref_mask ->
  exists (idx : nat) (m : Raster A),
    mask_selection masks scores (Some ref_mask) false = Ret m /\
    masks !! idx = Some m /\
    (forall j mj, masks !! j = Some mj ->
       (mean_sq_diff m ref_mask <= mean_sq_diff mj ref_mask)%Q) /\
    (forall j mj, (j < idx)%nat -> masks !! j = Some mj ->
       (mean_sq_diff m ref_mask < mean_sq_diff mj ref_mask)%Q) /\
    (forall scores', mask_selection masks scores' (Some ref_mask) false = Ret m).
Proof.
  intros Hne Hms Hr Ems Er.
  destruct masks as [|m0 rest]; [done|]. clear Hne.
  pose proof (mse_same_shape H W (m0 :: rest) ref_mask Hms Hr Ems Er) as Hmse.
  destruct (decide ((H * W)%nat = 0%nat)) as [H0|Hpos].
  - exists 0%nat, m0.
    assert (Np.argmin ((fun _ : Raster A => Np.NaN) <$> m0 :: rest) = Ret 0%nat)
      as Harg by (by destruct rest).
    split; [by eapply mask_selection_ref|].
    split; [done|]. split; [|split].
    + intros j mj Hj.
      rewrite (mean_sq_diff_empty H W m0), (mean_sq_diff_empty H W mj); try done.
      * by apply (Forall_lookup_1 _ _ _ _ Hms Hj).
      * by apply (Forall_lookup_1 _ _ 0%nat m0 Hms).
    + intros j mj Hj. lia.
    + intros scores'. by eapply mask_selection_ref.
  - destruct (argmin_loop_spec ((fun m => mean_sq_diff m ref_mask) <$> rest)
                [mean_sq_diff m0 ref_mask] (mean_sq_diff m0 ref_mask) 0)
      as (v & Hv & Hmin & Hfirst).
    + done.
    + intros [|j] x [= <-]. apply Qle_refl.
    + intros j x Hj. lia.
    + change ([mean_sq_diff m0 ref_mask] ++
                ((fun m => mean_sq_diff m ref_mask) <$> rest))
        with ((fun m => mean_sq_diff m ref_mask) <$> m0 :: rest) in *.
      simpl length in *.
      set (idx := Np.argmin_loop _ _ _ _) in *.
      rewrite list_lookup_fmap in Hv.
      destruct ((m0 :: rest) !! idx) as [m|] eqn:Hm; [|done].
      injection Hv as <-.
      assert (Np.argmin ((fun m => Np.Fin (mean_sq_diff m ref_mask))
                           <$> m0 :: rest) = Ret idx) as Harg.
      { rewrite fmap_cons. unfold Np.argmin, idx.
        by rewrite <- list_fmap_compose. }
      exists idx, m.
      split; [by eapply mask_selection_ref|]. split; [done|]. split; [|split].
      * intros j mj Hj. apply (Hmin j). by rewrite list_lookup_fmap, Hj.
      * intros j mj Hlt Hj. apply (Hfirst j); [done|].
        by rewrite list_lookup_fmap, Hj.
      * intros scores'. by eapply mask_selection_ref.
Qed.


(** ** Binarization and dilation *)

Lemma binarize_binary (m : BoolMask) : binary (binarize m).
Proof.
  unfold binary, binarize. apply Forall_fmap, Forall_true. intros row.
  apply Forall_fmap, Forall_true. intros []; cbn; auto.
Qed.

Lemma binarize_shape (H W : nat) (m : BoolMask) :
  has_shape H W m -> has_shape H W (binarize m).
Proof.
  unfold has_shape, binarize. intros [Hl Hr]. split.
  - by rewrite length_map.
  - apply Forall_fmap. eapply Forall_impl; [exact Hr|].
    intros row Hrow. cbn. by rewrite length_map.
Qed.

Lemma binary_eight_bit (m : Mask) : binary m -> eight_bit m.
Proof.
  unfold binary, eight_bit. intros Hm.
  eapply Forall_impl; [exact Hm|]. intros row Hrow.
  eapply Forall_impl; [exact Hrow|]. intros v [-> | ->]; by vm_compute.
Qed.

Lemma binary_pixel (m : Mask) (y x v : Z) :
  binary m -> pixel m y x = Some v -> v = 0 \/ v = 255.
Proof.
  intros Hm. unfold pixel. case_decide; [|done].
  destruct (m !! Z.to_nat y) as [row|] eqn:Hrow; [|done]. cbn.
  intros Hv.
  pose proof (Forall_lookup_1 _ _ _ _ Hm Hrow) as Hr.
  exact (Forall_lookup_1 _ _ _ _ Hr Hv).
Qed.

Lemma max_binary (vs : list Z) :
  Forall (fun v => v = 0 \/ v = 255) vs ->
  foldr Z.max 0 vs = 0 \/ foldr Z.max 0 vs = 255.
Proof.
  induction 1 as [|v vs Hv _ IH]; cbn; [by left|].
  destruct Hv as [-> | ->], IH as [-> | ->]; cbn; auto.
Qed.

Lemma dilate_pixel_binary (m : Mask) (k y x : Z) :
  binary m -> dilate_pixel m k y x = 0 \/ dilate_pixel m k y x = 255.
Proof.
  intros Hm. unfold dilate_pixel. apply max_binary.
  apply Forall_forall. intros v Hv.
  apply list_elem_of_omap in Hv as ([y' x'] & _ & Hv).
  by eapply binary_pixel.
Qed.

(** Dilation keeps a mask binary: a maximum of pixels in {0, 255}. *)
Lemma dilate_square_binary (m : Mask) (k : Z) :
  binary m -> binary (dilate_square m k).
Proof.
  intros Hm. unfold binary, dilate_square.
  apply Forall_lookup. intros y row Hrow.
  apply list_lookup_imap_Some in Hrow as (row0 & _ & ->).
  apply Forall_lookup. intros x v Hv.
  apply list_lookup_imap_Some in Hv as (v0 & _ & ->).
  by apply dilate_pixel_binary.
Qed.

Lemma dilate_square_shape (H W : nat) (m : Mask) (k : Z) :
  has_shape H W m -> has_shape H W (dilate_square m k).
Proof.
  unfold has_shape, dilate_square. intros [Hl Hr]. split.
  - by rewrite length_imap.
  - apply Forall_lookup. intros y row Hrow.
    apply list_lookup_imap_Some in Hrow as (row0 & Hrow0 & ->).
    rewrite length_imap. exact (Forall_lookup_1 _ _ _ _ Hr Hrow0).
Qed.

Lemma dilated_binary (dks : option Z) (sel mask : Mask) :
  binary sel -> dilated dks sel = Ret mask -> binary mask.
Proof.
  intros Hs Hd. destruct dks as [k|]; cbn in Hd.
  - unfold dilate in Hd. case_decide; injection Hd as <-; [|done].
    by apply dilate_square_binary.
  - by injection Hd as <-.
Qed.

Lemma dilated_shape (H W : nat) (dks : option Z) (sel mask : Mask) :
  has_shape H W sel -> dilated dks sel = Ret mask -> has_shape H W mask.
Proof.
  intros Hs Hd. destruct dks as [k|]; cbn in Hd.
  - unfold dilate in Hd. case_decide; injection Hd as <-; [|done].
    by apply dilate_square_shape.
  - by injection Hd as <-.
Qed.

Lemma getitem_elem {A} (a : list A) (i : Z) (x : A) :
  Np.getitem a i = Ret x -> x ∈ a.
Proof.
  unfold Np.getitem. case_decide; [|done].
  destruct (a !! _) as [y|] eqn:Hy; [|done]. intros [= <-].
  by eapply list_elem_of_lookup_2.
Qed.

(** The policy returns one of its candidates. *)
Lemma mask_selection_elem {A} {A_int : Np.NpInt A}
    (masks : list (Raster A)) (scores : list Q) (ref_mask : option Mask)
    (interactive : bool) (m : Raster A) :
  mask_selection masks scores ref_mask interactive = Ret m -> m ∈ masks.
Proof.
  unfold mask_selection. destruct interactive; [done|].
  destruct (match ref_mask with Some _ => _ | None => _ end) as [idx|e];
    [|done].
  cbn. apply getitem_elem.
Qed.

(** ** The controller, step by step *)

Ltac unfold_M :=
  unfold mbind, M_bind, mret, M_ret, lift, py_assert, log,
         load_img_to_array, save_array_to_img, dilate_mask, dilate_if_set,
         forward_tracker, forward_inpainter in *.

Ltac unfold_bind :=
  repeat match goal with
  | |- context [ @mbind M _ ?A ?B ?f ?m ?w ] =>
      change (@mbind M _ A B f m w)
        with (match m w with
              | (Ret a, w') => f a w'
              | (Raise e, w') => (Raise e, w')
              end)
  end; cbn beta.

Lemma after_steps_cons (dks : option Z) (st : step) (sts : list step)
    (w : world) (cs : list call) :
  cs = calls w ++ step_calls dks st ->
  after_steps dks sts {| sam_image := None; files := files w; calls := cs |}
  = after_steps dks (st :: sts) w.
Proof.
  intros ->. unfold after_steps. cbn. f_equal.
  - by destruct sts.
  - by rewrite <- !(assoc_L (++)).
Qed.

Section Controller.

Variable load_img : string -> outcome Image.
Variable sam_predict : Image -> Prompt -> outcome (list BoolMask * list Q).
Variable get_box_using_ostrack : list string -> Box -> outcome (list Box).

(** [forward_segmentor] in one equation: the context is released after a
    prediction that returns, and keeps the image after one that raises. *)
Lemma forward_segmentor_run (img : Image) pc pl b mi mo rl (w : world) :
  forward_segmentor sam_predict img pc pl b mi mo rl w =
  match sam_predict img (mkPrompt pc pl b mi mo rl) with
  | Ret r =>
      (Ret r, {| sam_image := None; files := files w;
                 calls := calls w
                          ++ segment_calls img (mkPrompt pc pl b mi mo rl) |})
  | Raise e =>
      (Raise e, {| sam_image := Some img; files := files w;
                   calls := calls w
                            ++ [CallSetImage img;
                                CallPredict (mkPrompt pc pl b mi mo rl)] |})
  end.
Proof.
  unfold forward_segmentor, set_image, predict, reset_image.
  unfold_M. cbn.
  destruct (sam_predict img _) as [[masks scores]|e]; cbn;
    by rewrite <- !(assoc_L (++)).
Qed.

(** The dilation step of the controller. *)
Lemma dilate_if_set_run (dks : option Z) (mask : Mask) (w : world) :
  dilate_if_set dks mask w =
  (dilated dks mask,
   {| sam_image := sam_image w; files := files w;
      calls := calls w ++ dilate_calls dks mask |}).
Proof.
  destruct w as [img fs cs], dks as [k|]; cbn; unfold_M; cbn;
    by rewrite ?app_nil_r.
Qed.

(** One iteration of the propagation loop. *)
Lemma propagate_cons (dks : option Z) (ref_mask : Mask)
    (all_mask : list Mask) (all_frame : list Image)
    (p : string) (b : Box) (todo : list (string * Box)) (w : world) :
  propagate load_img sam_predict dks ref_mask all_mask all_frame
            ((p, b) :: todo) w =
  match load_img p with
  | Raise e => (Raise e, log (CallLoad p) w)
  | Ret frame =>
    match sam_predict frame (box_prompt (sam_box_of b)) with
    | Raise e =>
        (Raise e,
         {| sam_image := Some frame; files := files w;
            calls := (calls w ++ [CallLoad p])
                     ++ [CallSetImage frame;
                         CallPredict (box_prompt (sam_box_of b))] |})
    | Ret (cands, scores) =>
      let cs := (calls w ++ [CallLoad p])
                ++ segment_calls frame (box_prompt (sam_box_of b)) in
      match mask_selection (binarize <$> cands) scores
                           (Some ref_mask) false with
      | Raise e =>
          (Raise e, {| sam_image := None; files := files w; calls := cs |})
      | Ret sel =>
        let w' := {| sam_image := None; files := files w;
                     calls := cs ++ dilate_calls dks sel |} in
        match dilated dks sel with
        | Raise e => (Raise e, w')
        | Ret mask =>
            propagate load_img sam_predict dks mask
                      (all_mask ++ [mask]) (all_frame ++ [frame]) todo w'
        end
      end
    end
  end.
Proof.
  cbn [propagate]. unfold mbind at 1, M_bind at 1.
  unfold load_img_to_array at 1.
  destruct (load_img p) as [frame|e]; [|done].
  unfold mbind at 1, M_bind at 1. rewrite forward_segmentor_run.
  fold (box_prompt (sam_box_of b)).
  destruct (sam_predict frame _) as [[cands scores]|e]; [|done].
  unfold mbind at 1, M_bind at 1, lift at 1.
  destruct (mask_selection _ _ _ _) as [sel|e]; [|done].
  unfold mbind at 1, M_bind at 1. rewrite dilate_if_set_run.
  cbn [sam_image files calls log].
  by destruct (dilated dks sel) as [mask|e].
Qed.

(** The successful runs of the loop are the chains of iterations. *)
Lemma propagate_Ret_iff (dks : option Z) (todo : list (string * Box))
    (ref_mask : Mask) (all_mask : list Mask) (all_frame : list Image)
    (w : world) (all_mask' : list Mask) (all_frame' : list Image)
    (w' : world) :
  propagate load_img sam_predict dks ref_mask all_mask all_frame todo w
    = (Ret (all_mask', all_frame'), w')
  <-> exists sts : list step,
        st_todo <$> sts = todo /\
        chained load_img sam_predict dks ref_mask sts /\
        all_mask' = all_mask ++ (st_mask <$> sts) /\
        all_frame' = all_frame ++ (st_frame <$> sts) /\
        w' = after_steps dks sts w.
Proof.
  revert ref_mask all_mask all_frame w.
  induction todo as [|[p b] todo IH]; intros ref_mask all_mask all_frame w.
  - cbn. unfold_M. split.
    + intros [= <- <- <-]. exists []. cbn. rewrite !app_nil_r.
      repeat split. by destruct w; unfold after_steps; cbn; rewrite app_nil_r.
    + intros (sts & Htodo & _ & -> & -> & ->).
      apply fmap_nil_inv in Htodo as ->. cbn. rewrite !app_nil_r.
      by destruct w; unfold after_steps; cbn; rewrite app_nil_r.
  - rewrite propagate_cons. split.
    + destruct (load_img p) as [frame|e] eqn:Hload; [|done].
      destruct (sam_predict frame _) as [[cands scores]|e] eqn:Hpred; [|done].
      destruct (mask_selection _ _ _ _) as [sel|e] eqn:Hsel; [|done].
      destruct (dilated dks sel) as [mask|e] eqn:Hdil; [|done].
      cbn zeta. intros Hrun. apply IH in Hrun
        as (sts & Htodo & Hch & -> & -> & ->).
      exists (mkStep p b frame cands scores sel mask :: sts).
      split; [by rewrite fmap_cons, Htodo|].
      split; [by repeat split|].
      rewrite !fmap_cons. cbn [st_mask st_frame].
      rewrite <- !(assoc_L (++)). repeat split.
      apply (after_steps_cons dks (mkStep p b frame cands scores sel mask)).
      unfold step_calls. cbn. by rewrite <- ?(assoc_L (++)).
    + intros (sts & Htodo & Hch & -> & -> & ->).
      destruct sts as [|st sts]; [done|].
      rewrite fmap_cons in Htodo. injection Htodo as <- <- Htodo.
      destruct Hch as ((Hload & Hpred & Hsel & Hdil) & Hch).
      rewrite Hload, Hpred, Hsel, Hdil. cbn zeta.
      apply IH. exists sts.
      split; [done|]. split; [done|].
      rewrite !fmap_cons, <- !(assoc_L (++)). repeat split.
      symmetry. apply (after_steps_cons dks _ sts w).
      unfold step_calls. cbn. by rewrite <- ?(assoc_L (++)).
Qed.

(** The key-frame stage in one equation. *)
Lemma key_frame_stage_run (ps : list string) (kidx : Z)
    (coords : list (Z * Z)) (labels : list Z) (kmi dks : option Z)
    (w : world) :
  key_frame_stage load_img sam_predict ps kidx coords labels kmi dks w =
  if bool_decide (kidx = 0) then
    match Np.getitem ps kidx with
    | Raise e => (Raise e, w)
    | Ret p =>
      match load_img p with
      | Raise e => (Raise e, log (CallLoad p) w)
      | Ret kf =>
        match sam_predict kf (point_prompt coords labels) with
        | Raise e =>
            (Raise e,
             {| sam_image := Some kf; files := files w;
                calls := (calls w ++ [CallLoad p])
                         ++ [CallSetImage kf;
                             CallPredict (point_prompt coords labels)] |})
        | Ret (kms, kss) =>
          let cs := (calls w ++ [CallLoad p])
                    ++ segment_calls kf (point_prompt coords labels) in
          match key_selection kmi kms kss with
          | Raise e =>
              (Raise e,
               {| sam_image := None; files := files w; calls := cs |})
          | Ret sel =>
              (km ← dilated dks (binarize sel); Ret (kf, km),
               {| sam_image := None; files := files w;
                  calls := cs ++ dilate_calls dks (binarize sel) |})
          end
        end
      end
    end
  else (Raise (AssertionError "Only support key frame at the beginning."), w).
Proof.
  unfold key_frame_stage.
  unfold mbind at 1, M_bind at 1, py_assert, lift at 1.
  destruct (bool_decide (kidx = 0)); [|done].
  unfold mbind at 1, M_bind at 1, lift at 1.
  destruct (Np.getitem ps kidx) as [p|e]; [|done].
  unfold mbind at 1, M_bind at 1, load_img_to_array at 1.
  destruct (load_img p) as [kf|e]; [|done].
  unfold mbind at 1, M_bind at 1. rewrite forward_segmentor_run.
  fold (point_prompt coords labels).
  destruct (sam_predict kf _) as [[kms kss]|e]; [|done].
  unfold mbind at 1, M_bind at 1, lift at 1.
  fold (key_selection kmi kms kss).
  destruct (key_selection kmi kms kss) as [sel|e]; [|done].
  unfold mbind at 1, M_bind at 1. rewrite dilate_if_set_run.
  cbn [sam_image files calls log].
  by destruct (dilated dks (binarize sel)) as [km|e].
Qed.

(** [forward] is the key-frame stage followed by the write of the
    key-frame mask, the tracker and the propagation loop. *)
Lemma forward_run (ps : list string) (kidx : Z)
    (coords : list (Z * Z)) (labels : list Z) (kmi dks : option Z)
    (w : world) :
  forward load_img sam_predict get_box_using_ostrack
          ps kidx coords labels kmi dks w =
  match key_frame_stage load_img sam_predict ps kidx coords labels kmi dks w
  with
  | (Raise e, w1) => (Raise e, w1)
  | (Ret (kf, km), w1) =>
    let w2 := {| sam_image := sam_image w1;
                 files := <["mask.png" := km]> (files w1);
                 calls := calls w1
                          ++ [CallSave km "mask.png";
                              CallTracker ps (get_box_from_mask km)] |} in
    match get_box_using_ostrack ps (get_box_from_mask km) with
    | Raise e => (Raise e, w2)
    | Ret all_box =>
      match propagate load_img sam_predict dks km [km] [kf]
                      (zip (drop 1 ps) (drop 1 all_box)) w2 with
      | (Ret (all_mask, all_frame), w3) =>
          (Ret (all_frame, all_mask, all_box), w3)
      | (Raise e, w3) => (Raise e, w3)
      end
    end
  end.
Proof.
  unfold forward, key_frame_stage.
  unfold_bind. destruct (py_assert _ _ w) as [[[]|e] w1]; [|done].
  unfold_bind. destruct (lift _ w1) as [[p|e] w2]; [|done].
  unfold_bind. destruct (load_img_to_array _ _ w2) as [[kf|e] w3]; [|done].
  unfold_bind.
  destruct (forward_segmentor _ _ _ _ _ _ _ _ w3) as [[[kms kss]|e] w4];
    [|done].
  unfold_bind. destruct (lift _ w4) as [[sel|e] w5]; [|done].
  unfold_bind. destruct (dilate_if_set _ _ w5) as [[km|e] w6]; [|done].
  unfold_bind.
  unfold mret, M_ret, save_array_to_img, forward_tracker, log.
  unfold_bind. cbn [sam_image files calls].
  rewrite <- !(assoc_L (++)). cbn [app].
  destruct (get_box_using_ostrack ps _) as [all_box|e]; [|done].
  unfold_bind.
  by destruct (propagate _ _ _ _ _ _ _ _) as [[[am af]|e] w7].
Qed.

(** Whatever its outcome, the loop writes no file and only adds calls; with
    no kernel size none of them is a dilation. *)
Lemma propagate_effects (dks : option Z) (todo : list (string * Box))
    (ref_mask : Mask) (all_mask : list Mask) (all_frame : list Image)
    (w : world) :
  files (propagate load_img sam_predict dks ref_mask all_mask all_frame
                   todo w).2 = files w /\
  exists new,
    calls (propagate load_img sam_predict dks ref_mask all_mask all_frame
                     todo w).2 = calls w ++ new /\
    (dks = None -> dilations new = []).
Proof.
  revert ref_mask all_mask all_frame w.
  induction todo as [|[p b] todo IH]; intros ref_mask all_mask all_frame w.
  - cbn. split; [done|]. exists []. by rewrite app_nil_r.
  - rewrite propagate_cons.
    destruct (load_img p) as [frame|e].
    2: { cbn. split; [done|]. by exists [CallLoad p]. }
    destruct (sam_predict frame _) as [[cands scores]|e].
    2: { cbn. split; [done|]. eexists. by rewrite <- (assoc_L (++)). }
    destruct (mask_selection _ _ _ _) as [sel|e].
    2: { cbn. split; [done|]. eexists. by rewrite <- (assoc_L (++)). }
    cbn zeta.
    assert (dks = None -> dilations (dilate_calls dks sel) = []) as Hdil
      by (by intros ->).
    destruct (dilated dks sel) as [mask|e].
    2: { cbn. split; [done|]. eexists.
         rewrite <- !(assoc_L (++)). split; [done|]. exact Hdil. }
    match goal with
    | |- context [propagate _ _ _ ?r ?am ?af _ ?w0] =>
        destruct (IH r am af w0) as (Hf & new & Hc & Hnew)
    end.
    cbn zeta. split; [by rewrite Hf|].
    eexists. rewrite Hc. cbn [calls].
    rewrite <- !(assoc_L (++)). split; [done|].
    intros Hd. unfold dilations in *. cbn.
    rewrite omap_app. rewrite (Hdil Hd), (Hnew Hd). done.
Qed.

Lemma getitem_0 {A} (l : list A) (x : A) :
  Np.getitem l 0 = Ret x <-> l !! 0%nat = Some x.
Proof.
  unfold Np.getitem.
  destruct l as [|y l]; cbn [length]; repeat case_decide; try lia;
    change (Z.to_nat 0) with 0%nat; cbn; split; congruence.
Qed.

(** The runs of [forward] that return. *)
Lemma forward_Ret_iff (ps : list string) (kidx : Z)
    (coords : list (Z * Z)) (labels : list Z) (kmi dks : option Z)
    (w : world) (frames : list Image) (masks : list Mask)
    (boxes : list Box) (w' : world) :
  forward load_img sam_predict get_box_using_ostrack
          ps kidx coords labels kmi dks w
    = (Ret (frames, masks, boxes), w')
  <-> kidx = 0 /\
      exists r : run,
        run_ok load_img sam_predict get_box_using_ostrack
               ps coords labels kmi dks boxes r /\
        frames = run_frames r /\ masks = run_masks r /\
        w' = {| sam_image := None;
                files := <["mask.png" := key_mask r]> (files w);
                calls := calls w ++ run_calls ps coords labels dks r |}.
Proof.
  rewrite forward_run, key_frame_stage_run. split.
  - case_bool_decide as Hk; [subst kidx|done].
    destruct (Np.getitem ps 0) as [p|e] eqn:Hp; [|done].
    apply getitem_0 in Hp.
    destruct (load_img p) as [kf|e] eqn:Hload; [|done].
    destruct (sam_predict kf _) as [[kms kss]|e] eqn:Hpred; [|done].
    cbn zeta.
    destruct (key_selection kmi kms kss) as [sel|e] eqn:Hsel; [|done].
    destruct (dilated dks (binarize sel)) as [km|e] eqn:Hdil; [|done].
    cbn [mbind outcome_bind sam_image files calls]. cbn zeta.
    destruct (get_box_using_ostrack ps _) as [all_box|e] eqn:Htr; [|done].
    destruct (propagate _ _ _ _ _ _ _ _) as [[[am af]|e] w3] eqn:Hprop;
      [|done].
    intros [= <- <- <- <-].
    apply propagate_Ret_iff in Hprop as (sts & Htodo & Hch & -> & -> & ->).
    split; [done|].
    exists (mkRun p kf kms kss sel km sts).
    split; [by repeat split|].
    split; [done|]. split; [done|].
    unfold after_steps, run_calls, key_stage_calls. cbn.
    f_equal; [by destruct sts|]. by rewrite <- !(assoc_L (++)).
  - intros (-> & r & ((Hp & Hload & Hpred & Hsel & Hdil) & Htr & Htodo & Hch)
              & -> & -> & ->).
    apply getitem_0 in Hp.
    rewrite bool_decide_eq_true_2 by done.
    rewrite Hp, Hload, Hpred. cbn zeta. rewrite Hsel, Hdil.
    cbn [mbind outcome_bind sam_image files calls]. cbn zeta.
    rewrite Htr.
    match goal with
    | |- context [propagate _ _ _ ?rm ?am ?af ?td ?w0] =>
        pose proof (proj2 (propagate_Ret_iff dks td rm am af w0
          (am ++ (st_mask <$> steps r)) (af ++ (st_frame <$> steps r))
          (after_steps dks (steps r) w0))) as Hprop
    end.
    rewrite Hprop by (exists (steps r); by repeat split).
    unfold after_steps, run_calls, key_stage_calls, run_frames, run_masks.
    cbn. do 2 f_equal; [by destruct (steps r)|].
    by rewrite <- !(assoc_L (++)).
Qed.

End Controller.

(** ** Chains of iterations *)

Section Chains.

Variable load_img : string -> outcome Image.
Variable sam_predict : Image -> Prompt -> outcome (list BoolMask * list Q).

(** The selection of an iteration is binary, and so is its mask. *)
Lemma step_ok_binary (dks : option Z) (ref_mask : Mask) (st : step) :
  step_ok load_img sam_predict dks ref_mask st ->
  binary (st_sel st) /\ binary (st_mask st).
Proof.
  intros (_ & _ & Hsel & Hdil).
  assert (binary (st_sel st)) as Hb.
  { apply mask_selection_elem, list_elem_of_fmap in Hsel as (c & -> & _).
    apply binarize_binary. }
  split; [done|]. by eapply dilated_binary.
Qed.

Lemma chained_binary (dks : option Z) (sts : list step) (ref_mask : Mask) :
  chained load_img sam_predict dks ref_mask sts ->
  Forall binary (st_mask <$> sts).
Proof.
  revert ref_mask. induction sts as [|st sts IH]; intros ref_mask; cbn.
  - constructor.
  - intros [Hst Hch]. constructor; [|by eapply IH].
    by eapply step_ok_binary.
Qed.

(** The reference of the iteration of rank [i] is the mask just before it
    in the list of masks. *)
Lemma chained_lookup (dks : option Z) (sts : list step) (ref_mask : Mask)
    (i : nat) (st : step) :
  chained load_img sam_predict dks ref_mask sts ->
  sts !! i = Some st ->
  exists prev, (ref_mask :: (st_mask <$> sts)) !! i = Some prev /\
               step_ok load_img sam_predict dks prev st.
Proof.
  revert ref_mask i. induction sts as [|st0 sts IH]; intros ref_mask i;
    [done|].
  cbn. intros [Hst Hch] Hi. destruct i as [|i].
  - injection Hi as ->. by exists ref_mask.
  - cbn in Hi. exact (IH _ _ Hch Hi).
Qed.

Lemma chained_dilated (dks : option Z) (sts : list step) (ref_mask : Mask) :
  chained load_img sam_predict dks ref_mask sts ->
  Forall2 (fun s m => dilated dks s = Ret m)
          (st_sel <$> sts) (st_mask <$> sts).
Proof.
  revert ref_mask. induction sts as [|st sts IH]; intros ref_mask; cbn.
  - constructor.
  - intros [(_ & _ & _ & Hdil) Hch]. constructor; [done|by eapply IH].
Qed.

End Chains.

(** ** The calls of a run *)

Lemma box_prompts_app (cs1 cs2 : list call) :
  box_prompts (cs1 ++ cs2) = box_prompts cs1 ++ box_prompts cs2.
Proof. apply omap_app. Qed.


Lemma box_prompts_dilate_calls (dks : option Z) (sel : Mask) :
  box_prompts (dilate_calls dks sel) = [].
Proof. by destruct dks. Qed.


Lemma box_prompts_steps (dks : option Z) (sts : list step) :
  box_prompts (concat (step_calls dks <$> sts))
  = (fun st => sam_box_of (st_box st)) <$> sts.
Proof.
  induction sts as [|st sts IH]; [done|].
  rewrite !fmap_cons. cbn [concat]. rewrite box_prompts_app, IH.
  unfold step_calls. cbn. by rewrite box_prompts_dilate_calls.
Qed.


Lemma box_prompts_run (ps : list string) (coords : list (Z * Z))
    (labels : list Z) (dks : option Z) (r : run) :
  box_prompts (run_calls ps coords labels dks r)
  = (fun st => sam_box_of (st_box st)) <$> steps r.
Proof.
  unfold run_calls, key_stage_calls.
  rewrite !box_prompts_app, box_prompts_steps. cbn.
  by rewrite box_prompts_dilate_calls.
Qed.


Lemma dilated_dilation (dks : option Z) (mask : Mask) :
  (forall k, dks = Some k -> 0 < k) ->
  dilated dks mask = Ret (dilation dks mask).
Proof.
  intros Hk. destruct dks as [k|]; cbn; [|done].
  unfold dilate. by rewrite decide_True by auto.
Qed.

(** ** The definitions on small inputs *)

Example binarize_ex : binarize [[true; false]; [false; true]] = [[255; 0]; [0; 255]].
Proof. reflexivity. Qed.

Example getitem_last_ex : Np.getitem [10; 20; 30] (-1) = Ret 30.
Proof. reflexivity. Qed.

Example getitem_out_of_range_ex : Np.getitem [10; 20; 30] 3 = Raise IndexError.
Proof. reflexivity. Qed.

(** The second and the fourth candidate both equal the reference: the
    second is returned. *)
Example mask_selection_tie_ex :
  mask_selection Demo.cands [] (Some (binarize Demo.top)) false
  = Ret (binarize Demo.top) /\
  Np.mse Demo.cands (binarize Demo.top)
  = Ret [Np.Fin (130050 # 4); Np.Fin (0 # 4); Np.Fin (65025 # 4); Np.Fin (0 # 4)].
Proof. split; reflexivity. Qed.

Example mask_selection_shape_ex :
  mask_selection Demo.cands [] (Some [[255; 0; 0]]) false = Raise ValueError.
Proof. reflexivity. Qed.

Example mask_selection_empty_ex :
  mask_selection (A := Z) [] [] (Some [[255]]) false = Raise ValueError.
Proof. reflexivity. Qed.

Example mask_selection_interactive_ex :
  mask_selection Demo.cands [] None true = Raise NotImplementedError.
Proof. reflexivity. Qed.

Example dilate_ex :
  dilate [[0; 0; 0; 0]; [0; 255; 0; 0]; [0; 0; 0; 0]; [0; 0; 0; 0]] 3
  = Ret [[255; 255; 255; 0]; [255; 255; 255; 0]; [255; 255; 255; 0];
         [0; 0; 0; 0]].
Proof. vm_compute. reflexivity. Qed.

Example boundingRect_ex :
  boundingRect [[0; 0; 0; 0]; [0; 255; 0; 0]; [0; 0; 255; 0]; [0; 0; 0; 0]]
  = (1, 1, 2, 2).
Proof. reflexivity. Qed.

Example sam_box_of_ex : sam_box_of (3, 4, 10, 20) = (3, 4, 13, 24).
Proof. reflexivity. Qed.

(** * The properties of the pipeline's description *)

(** C1. With a reference mask and the interactive mode off, [mask_selection]
    returns the candidate whose mean squared pixel-wise difference against
    the reference (both cast to integers) is minimal; among the candidates
    attaining the minimum it returns the one of lowest index; and the result
    depends on the candidates and the reference only, not on the scores. *)
Theorem mask_selection_min_mse {A} {A_int : Np.NpInt A} (H W : nat)
    (masks : list (Raster A)) (scores : list Q) (ref_mask : Mask) :
  masks <> [] ->
  Forall (has_shape H W) masks -> has_shape H W ref_mask ->
  Forall eight_bit masks -> eight_bit ref_mask ->
  exists (idx : nat) (m : Raster A),
    mask_selection masks scores (Some ref_mask) false = Ret m /\
    masks !! idx = Some m /\
    (forall j mj, masks !! j = Some mj ->
       (mean_sq_diff m ref_mask <= mean_sq_diff mj ref_mask)%Q) /\
    (forall j mj, (j < idx)%nat -> masks !! j = Some mj ->
       (mean_sq_diff m ref_mask < mean_sq_diff mj ref_mask)%Q) /\
    (forall scores', mask_selection masks scores' (Some ref_mask) false = Ret m).
Proof. apply mask_selection_ref_spec. Qed.

Lemma mask_selection_min_mse_witness :
  Demo.cands <> [] /\
  Forall (has_shape 2 2) Demo.cands /\ has_shape 2 2 (binarize Demo.top) /\
  Forall eight_bit Demo.cands /\ eight_bit (binarize Demo.top) /\
  exists (idx : nat) (m : Mask),
    mask_selection Demo.cands [] (Some (binarize Demo.top)) false = Ret m /\
    Demo.cands !! idx = Some m /\
    (forall j mj, Demo.cands !! j = Some mj ->
       (mean_sq_diff m (binarize Demo.top)
        <= mean_sq_diff mj (binarize Demo.top))%Q) /\
    (forall j mj, (j < idx)%nat -> Demo.cands !! j = Some mj ->
       (mean_sq_diff m (binarize Demo.top)
        < mean_sq_diff mj (binarize Demo.top))%Q) /\
    (forall scores',
       mask_selection Demo.cands scores' (Some (binarize Demo.top)) false
       = Ret m).
Proof.
  assert (Demo.cands <> []) as H1 by discriminate.
  assert (Forall (has_shape 2 2) Demo.cands) as H2 by repeat constructor.
  assert (has_shape 2 2 (binarize Demo.top)) as H3 by repeat constructor.
  assert (Forall eight_bit Demo.cands) as H4.
  { repeat (constructor; [apply binary_eight_bit, binarize_binary|]).
    constructor. }
  assert (eight_bit (binarize Demo.top)) as H5
    by apply binary_eight_bit, binarize_binary.
  repeat (split; [assumption|]).
  exact (mask_selection_min_mse 2 2 Demo.cands [] (binarize Demo.top)
           H1 H2 H3 H4 H5).
Defined.

(** C6. Without a reference mask and with the interactive mode off,
    [mask_selection] returns the candidate of maximum confidence score, the
    first one in candidate order when several share the maximum. *)
Theorem mask_selection_max_score {A} {A_int : Np.NpInt A}
    (masks : list (Raster A)) (scores : list Q) :
  scores <> [] -> length scores = length masks ->
  exists (idx : nat) (m : Raster A) (s : Q),
    mask_selection masks scores None false = Ret m /\
    masks !! idx = Some m /\ scores !! idx = Some s /\
    (forall j x, scores !! j = Some x -> (x <= s)%Q) /\
    (forall j x, (j < idx)%nat -> scores !! j = Some x -> (x < s)%Q).
Proof.
  intros Hne Hlen. destruct scores as [|s0 rest]; [done|]. clear Hne.
  destruct (argmax_loop_spec rest [s0] s0 0) as (v & Hv & Hmax & Hfirst).
  - done.
  - intros [|j] x [= <-]. apply Qle_refl.
  - intros j x Hj. lia.
  - simpl in Hv, Hmax, Hfirst.
    set (idx := Np.argmax_loop _ _ _ _) in *.
    destruct (lookup_lt_is_Some_2 masks idx) as [m Hm].
    { rewrite <- Hlen. by eapply lookup_lt_Some. }
    exists idx, m, v. unfold mask_selection. simpl. fold idx.
    split; [by apply getitem_nat|]. done.
Qed.

Lemma mask_selection_max_score_witness :
  Demo.scores <> [] /\
  length Demo.scores = length [Demo.corner; Demo.top; Demo.full] /\
  exists (idx : nat) (m : BoolMask) (s : Q),
    mask_selection [Demo.corner; Demo.top; Demo.full] Demo.scores None false
      = Ret m /\
    [Demo.corner; Demo.top; Demo.full] !! idx = Some m /\
    Demo.scores !! idx = Some s /\
    (forall j x, Demo.scores !! j = Some x -> (x <= s)%Q) /\
    (forall j x, (j < idx)%nat -> Demo.scores !! j = Some x -> (x < s)%Q).
Proof.
  split; [discriminate|]. split; [reflexivity|].
  apply mask_selection_max_score; [discriminate | reflexivity].
Defined.

Section Claims.

Variable load_img : string -> outcome Image.
Variable sam_predict : Image -> Prompt -> outcome (list BoolMask * list Q).
Variable get_box_using_ostrack : list string -> Box -> outcome (list Box).

(** C3. A call of [forward] with a key-frame index other than 0 raises the
    assertion error at once: the world is left as it was, so no call to
    the tracker, the segmentor or the inpainter (nor any other call) has
    been made. *)
Theorem forward_key_frame_idx_nonzero (ps : list string) (kidx : Z)
    (coords : list (Z * Z)) (labels : list Z) (kmi dks : option Z)
    (w : world) :
  kidx <> 0 ->
  forward load_img sam_predict get_box_using_ostrack
          ps kidx coords labels kmi dks w
  = (Raise (AssertionError "Only support key frame at the beginning."), w).
Proof.
  intros Hk. rewrite forward_run, key_frame_stage_run.
  by rewrite bool_decide_eq_false_2.
Qed.

(** C5, amended. [forward_segmentor] releases the image it set when the
    prediction returns: the context is empty again and the calls made are
    set-image, predict, reset-image. When the prediction raises, the
    exception leaves [forward_segmentor] with the image still in context:
    no reset-image call is made. *)
Theorem forward_segmentor_release (img : Image)
    (pc : option (list (Z * Z))) (pl : option (list Z)) (b : option Box)
    (mi : option (Raster Q)) (mo rl : bool) (w : world) :
  (forall r, sam_predict img (mkPrompt pc pl b mi mo rl) = Ret r ->
     forward_segmentor sam_predict img pc pl b mi mo rl w
     = (Ret r, {| sam_image := None; files := files w;
                  calls := calls w ++ [CallSetImage img;
                                        CallPredict (mkPrompt pc pl b mi mo rl);
                                        CallResetImage] |})) /\
  (forall e, sam_predict img (mkPrompt pc pl b mi mo rl) = Raise e ->
     forward_segmentor sam_predict img pc pl b mi mo rl w
     = (Raise e, {| sam_image := Some img; files := files w;
                    calls := calls w ++ [CallSetImage img;
                                          CallPredict (mkPrompt pc pl b mi mo rl)] |})).
Proof.
  split; intros r Hr; by rewrite forward_segmentor_run, Hr.
Qed.

(** C10. Once the key-frame stage has yielded the key-frame mask, the run
    of [forward] writes that mask to the file "mask.png", whatever the
    arguments and whatever happens in the later stages. *)
Theorem forward_writes_key_mask (ps : list string) (kidx : Z)
    (coords : list (Z * Z)) (labels : list Z) (kmi dks : option Z)
    (w : world) (kf : Image) (km : Mask) (w1 : world) :
  key_frame_stage load_img sam_predict ps kidx coords labels kmi dks w
    = (Ret (kf, km), w1) ->
  files (forward load_img sam_predict get_box_using_ostrack
                 ps kidx coords labels kmi dks w).2 !! "mask.png" = Some km /\
  CallSave km "mask.png"
    ∈ calls (forward load_img sam_predict get_box_using_ostrack
                     ps kidx coords labels kmi dks w).2.
Proof.
  intros Hkey. rewrite forward_run, Hkey. cbn zeta.
  destruct (get_box_using_ostrack ps _) as [all_box|e]; cbn [snd].
  2: { cbn. split; [apply lookup_insert_eq|]. set_solver. }
  match goal with
  | |- context [propagate _ _ ?d ?r ?am ?af ?td ?w0] =>
      destruct (propagate_effects load_img sam_predict d td r am af w0)
        as (Hf & new & Hc & _);
      destruct (propagate load_img sam_predict d r am af td w0)
        as [[[am' af']|e] w3]
  end; cbn [snd] in *; rewrite Hf, Hc; cbn;
    (split; [apply lookup_insert_eq|]); set_solver.
Qed.

(** C8. Every mask [forward] returns has only the pixel values 0 and 255,
    with or without dilation (the segmentor's masks being boolean). *)
Theorem forward_masks_binary (ps : list string) (kidx : Z)
    (coords : list (Z * Z)) (labels : list Z) (kmi dks : option Z)
    (w : world) (frames : list Image) (masks : list Mask)
    (boxes : list Box) (w' : world) :
  forward load_img sam_predict get_box_using_ostrack
          ps kidx coords labels kmi dks w
    = (Ret (frames, masks, boxes), w') ->
  Forall binary masks.
Proof.
  intros Hrun. apply forward_Ret_iff in Hrun
    as (_ & r & ((_ & _ & _ & _ & Hdil) & _ & _ & Hch) & _ & -> & _).
  unfold run_masks. constructor.
  - eapply dilated_binary; [apply binarize_binary | exact Hdil].
  - by eapply chained_binary.
Qed.

(** C7. In a run of [forward] that returns, the mask of every frame of
    index [i > 0] is selected among the candidates the segmentor gives for
    frame [i] and its tracked box, with the mask recorded for frame [i - 1]
    as reference mask (for frame 1, the key-frame mask), then dilated if a
    kernel size is set. *)
Theorem forward_masks_chained (ps : list string) (kidx : Z)
    (coords : list (Z * Z)) (labels : list Z) (kmi dks : option Z)
    (w : world) (frames : list Image) (masks : list Mask)
    (boxes : list Box) (w' : world) :
  forward load_img sam_predict get_box_using_ostrack
          ps kidx coords labels kmi dks w
    = (Ret (frames, masks, boxes), w') ->
  forall (i : nat) (cur : Mask),
    (0 < i)%nat -> masks !! i = Some cur ->
    exists (prev : Mask) (frame_p : string) (frame : Image) (bx : Box)
           (cands : list BoolMask) (scores : list Q) (sel : Mask),
      masks !! (i - 1)%nat = Some prev /\
      ps !! i = Some frame_p /\ load_img frame_p = Ret frame /\
      frames !! i = Some frame /\ boxes !! i = Some bx /\
      sam_predict frame (box_prompt (sam_box_of bx)) = Ret (cands, scores) /\
      mask_selection (binarize <$> cands) scores (Some prev) false
        = Ret sel /\
      dilated dks sel = Ret cur.
Proof.
  intros Hrun i cur Hi Hcur. apply forward_Ret_iff in Hrun
    as (_ & r & (_ & _ & Htodo & Hch) & -> & -> & _).
  destruct i as [|j]; [lia|]. cbn in Hcur.
  apply list_lookup_fmap_Some in Hcur as (st & -> & Hst).
  destruct (chained_lookup _ _ _ _ _ _ _ Hch Hst)
    as (prev & Hprev & Hload & Hpred & Hsel & Hdil).
  assert ((st_todo <$> steps r) !! j = Some (st_todo st)) as Hj
    by (by rewrite list_lookup_fmap, Hst).
  rewrite Htodo in Hj.
  apply lookup_zip_with_Some in Hj as (p & bx & Heq & Hp & Hbx).
  unfold st_todo in Heq. injection Heq as <- <-.
  rewrite lookup_drop in Hp. rewrite lookup_drop in Hbx.
  exists prev, (st_frame_p st), (st_frame st), (st_box st),
         (st_cands st), (st_scores st), (st_sel st).
  replace (S j - 1)%nat with j by lia.
  repeat split; try done.
  change ((st_frame <$> steps r) !! j = Some (st_frame st)).
  by rewrite list_lookup_fmap, Hst.
Qed.

(** C9. In a run of [forward] that returns, the box given to the segmentor
    for the frame of index [i > 0] is the tracked box (x, y, w, h) of that
    frame turned into (x, y, x + w, y + h): the first corner is kept and
    the second is exactly the first plus the width and the height. *)
Theorem forward_box_prompts (ps : list string) (kidx : Z)
    (coords : list (Z * Z)) (labels : list Z) (kmi dks : option Z)
    (w : world) (frames : list Image) (masks : list Mask)
    (boxes : list Box) (w' : world) :
  forward load_img sam_predict get_box_using_ostrack
          ps kidx coords labels kmi dks w
    = (Ret (frames, masks, boxes), w') ->
  exists new : list call,
    calls w' = calls w ++ new /\
    length (box_prompts new) = (length masks - 1)%nat /\
    forall (i : nat) (x y bw bh : Z),
      (0 < i < length masks)%nat -> boxes !! i = Some (x, y, bw, bh) ->
      box_prompts new !! (i - 1)%nat = Some (x, y, x + bw, y + bh).
Proof.
  intros Hrun. apply forward_Ret_iff in Hrun
    as (_ & r & (_ & _ & Htodo & _) & _ & -> & ->).
  exists (run_calls ps coords labels dks r). split; [done|].
  rewrite box_prompts_run. unfold run_masks. cbn [length].
  rewrite !length_fmap. split; [lia|].
  intros i x y bw bh [Hi Hlt] Hbx.
  destruct i as [|j]; [lia|]. replace (S j - 1)%nat with j by lia.
  destruct (lookup_lt_is_Some_2 (steps r) j) as [st Hst]; [lia|].
  rewrite list_lookup_fmap, Hst. cbn.
  assert ((st_todo <$> steps r) !! j = Some (st_todo st)) as Hj
    by (by rewrite list_lookup_fmap, Hst).
  rewrite Htodo in Hj.
  apply lookup_zip_with_Some in Hj as (p & bx & Heq & _ & Hbx').
  rewrite lookup_drop in Hbx'. cbn in Hbx'. rewrite Hbx in Hbx'.
  injection Hbx' as <-. unfold st_todo in Heq. injection Heq as _ ->.
  done.
Qed.


(** C2. On three frame paths, with key-frame index 0, a point prompt and a
    manual mask index, [forward] returns three frames, three masks and
    three boxes in the order of the paths, when the frames load, the
    segmentor returns candidates of the frames' size, the manual index
    is in range and the tracker returns a box per frame. The first mask
    is the candidate at the manual index, whatever the scores, binarized
    and dilated if a kernel size is set. *)
Theorem forward_three_frames (p0 p1 p2 : string) (f0 f1 f2 : Image)
    (coords : list (Z * Z)) (labels : list Z) (k : Z) (dks : option Z)
    (kms : list BoolMask) (kss : list Q) (ksel : BoolMask)
    (b0 b1 b2 : Box) (c1 c2 : list BoolMask) (s1 s2 : list Q)
    (H W : nat) (w : world) :
  load_img p0 = Ret f0 -> load_img p1 = Ret f1 -> load_img p2 = Ret f2 ->
  sam_predict f0 (point_prompt coords labels) = Ret (kms, kss) ->
  Np.getitem kms k = Ret ksel -> has_shape H W ksel ->
  (forall d, dks = Some d -> 0 < d) ->
  get_box_using_ostrack [p0; p1; p2]
      (get_box_from_mask (dilation dks (binarize ksel)))
    = Ret [b0; b1; b2] ->
  sam_predict f1 (box_prompt (sam_box_of b1)) = Ret (c1, s1) ->
  c1 <> [] -> Forall (has_shape H W) c1 ->
  sam_predict f2 (box_prompt (sam_box_of b2)) = Ret (c2, s2) ->
  c2 <> [] -> Forall (has_shape H W) c2 ->
  exists (m1 m2 : Mask) (w' : world),
    forward load_img sam_predict get_box_using_ostrack
            [p0; p1; p2] 0 coords labels (Some k) dks w
    = (Ret ([f0; f1; f2],
            [dilation dks (binarize ksel); m1; m2],
            [b0; b1; b2]), w').
Proof.
  intros Hl0 Hl1 Hl2 Hk Hget Hshape Hdks Htr Hp1 Hc1 Hs1 Hp2 Hc2 Hs2.
  set (km := dilation dks (binarize ksel)) in *.
  assert (forall H' W' m, has_shape H' W' m ->
            has_shape H' W' (dilation dks m)) as Hdsh.
  { intros H' W' m Hm. destruct dks; [by apply dilate_square_shape|done]. }
  assert (forall m, binary m -> binary (dilation dks m)) as Hdbin.
  { intros m Hm. destruct dks; [by apply dilate_square_binary|done]. }
  assert (forall (cs : list BoolMask) ss ref_mask,
            cs <> [] -> Forall (has_shape H W) cs ->
            has_shape H W ref_mask -> binary ref_mask ->
            exists sel, mask_selection (binarize <$> cs) ss
                                       (Some ref_mask) false = Ret sel /\
                        has_shape H W sel /\ binary sel) as Hselect.
  { intros cs ss ref_mask Hne Hcs Href Hbin.
    destruct (mask_selection_ref_spec H W (binarize <$> cs) ss ref_mask)
      as (idx & sel & Hsel & Hidx & _).
    - by destruct cs.
    - apply Forall_fmap. eapply Forall_impl; [exact Hcs|].
      intros m Hm. by apply binarize_shape.
    - done.
    - apply Forall_fmap, Forall_true. intros m.
      apply binary_eight_bit, binarize_binary.
    - by apply binary_eight_bit.
    - exists sel. split; [done|].
      apply list_lookup_fmap_Some in Hidx as (c & -> & Hc).
      split; [|apply binarize_binary].
      apply binarize_shape. exact (Forall_lookup_1 _ _ _ _ Hcs Hc). }
  assert (has_shape H W km /\ binary km) as [Hkm_s Hkm_b].
  { split; [by apply Hdsh, binarize_shape|apply Hdbin, binarize_binary]. }
  destruct (Hselect c1 s1 km Hc1 Hs1 Hkm_s Hkm_b) as (sel1 & Hsel1 & Hsh1 & Hb1).
  destruct (Hselect c2 s2 (dilation dks sel1) Hc2 Hs2 (Hdsh _ _ _ Hsh1)
              (Hdbin _ Hb1)) as (sel2 & Hsel2 & _ & _).
  exists (dilation dks sel1), (dilation dks sel2). eexists.
  apply forward_Ret_iff. split; [done|].
  exists (mkRun p0 f0 kms kss ksel km
            [mkStep p1 b1 f1 c1 s1 sel1 (dilation dks sel1);
             mkStep p2 b2 f2 c2 s2 sel2 (dilation dks sel2)]).
  split; [|done].
  repeat split; cbn; try done; by apply dilated_dilation.
Qed.

End Claims.

Lemma forward_key_frame_idx_nonzero_witness :
  1 <> 0 /\
  Demo.run_forward Demo.paths 1 [(1, 1)] [1] (Some 1) (Some 15) Demo.w0
  = (Raise (AssertionError "Only support key frame at the beginning."),
     Demo.w0).
Proof.
  split; [lia|].
  apply (forward_key_frame_idx_nonzero Demo.load Demo.sam Demo.tracker). lia.
Defined.

(** ** The properties on the small world *)

Lemma forward_segmentor_release_witness :
  Demo.sam (Demo.frame 10) (box_prompt (0, 0, 2, 2))
    = Ret ([Demo.full; Demo.top; Demo.corner], [1 # 2; 1 # 2; 1 # 2]%Q) /\
  forward_segmentor Demo.sam (Demo.frame 10) None None (Some (0, 0, 2, 2))
                    None true false Demo.w0
  = (Ret ([Demo.full; Demo.top; Demo.corner], [1 # 2; 1 # 2; 1 # 2]%Q),
     {| sam_image := None; files := files Demo.w0;
        calls := calls Demo.w0
                 ++ [CallSetImage (Demo.frame 10);
                     CallPredict (box_prompt (0, 0, 2, 2));
                     CallResetImage] |}).
Proof.
  split; [reflexivity|].
  apply (proj1 (forward_segmentor_release Demo.sam (Demo.frame 10)
                  None None (Some (0, 0, 2, 2)) None true false Demo.w0)).
  reflexivity.
Defined.

(** C5, as stated, fails: when the prediction raises, [forward_segmentor]
    is left by the exception with the image still in the segmentor's
    context, and without a reset-image call. *)
Lemma forward_segmentor_failure_keeps_image :
  forward_segmentor Demo.sam_fails (Demo.frame 10) None None
                    (Some (0, 0, 2, 2)) None true false Demo.w0
  = (Raise (ExternalError "predict"),
     {| sam_image := Some (Demo.frame 10); files := files Demo.w0;
        calls := [CallSetImage (Demo.frame 10);
                  CallPredict (box_prompt (0, 0, 2, 2))] |}).
Proof. reflexivity. Qed.

Lemma forward_writes_key_mask_witness :
  key_frame_stage Demo.load Demo.sam Demo.paths 0 [(1, 1)] [1]
                  (Some 0) (Some 2) Demo.w0
    = (Ret (Demo.frame 10, binarize Demo.full),
       (key_frame_stage Demo.load Demo.sam Demo.paths 0 [(1, 1)] [1]
                        (Some 0) (Some 2) Demo.w0).2) /\
  files Demo.out.2 !! "mask.png" = Some (binarize Demo.full) /\
  CallSave (binarize Demo.full) "mask.png" ∈ calls Demo.out.2.
Proof.
  split; [vm_compute; reflexivity|].
  apply (forward_writes_key_mask Demo.load Demo.sam Demo.tracker
           Demo.paths 0 [(1, 1)] [1] (Some 0) (Some 2) Demo.w0
           (Demo.frame 10) (binarize Demo.full)
           (key_frame_stage Demo.load Demo.sam Demo.paths 0 [(1, 1)] [1]
                            (Some 0) (Some 2) Demo.w0).2).
  vm_compute; reflexivity.
Defined.

Lemma forward_masks_binary_witness :
  Demo.out = (Ret (Demo.frames, Demo.masks, Demo.boxes), Demo.out.2) /\
  Forall binary Demo.masks.
Proof.
  split; [vm_compute; reflexivity|].
  apply (forward_masks_binary Demo.load Demo.sam Demo.tracker
           Demo.paths 0 [(1, 1)] [1] (Some 0) (Some 2) Demo.w0
           Demo.frames Demo.masks Demo.boxes Demo.out.2).
  vm_compute; reflexivity.
Defined.

Lemma forward_masks_chained_witness :
  Demo.out = (Ret (Demo.frames, Demo.masks, Demo.boxes), Demo.out.2) /\
  (0 < 2)%nat /\ Demo.masks !! 2%nat = Some (binarize Demo.full) /\
  exists (prev : Mask) (frame_p : string) (frame : Image) (bx : Box)
         (cands : list BoolMask) (scores : list Q) (sel : Mask),
    Demo.masks !! (2 - 1)%nat = Some prev /\
    Demo.paths !! 2%nat = Some frame_p /\ Demo.load frame_p = Ret frame /\
    Demo.frames !! 2%nat = Some frame /\ Demo.boxes !! 2%nat = Some bx /\
    Demo.sam frame (box_prompt (sam_box_of bx)) = Ret (cands, scores) /\
    mask_selection (binarize <$> cands) scores (Some prev) false = Ret sel /\
    dilated (Some 2) sel = Ret (binarize Demo.full).
Proof.
  split; [vm_compute; reflexivity|]. split; [lia|]. split; [reflexivity|].
  apply (forward_masks_chained Demo.load Demo.sam Demo.tracker
           Demo.paths 0 [(1, 1)] [1] (Some 0) (Some 2) Demo.w0
           Demo.frames Demo.masks Demo.boxes Demo.out.2).
  - vm_compute; reflexivity.
  - lia.
  - reflexivity.
Defined.

Lemma forward_box_prompts_witness :
  Demo.out = (Ret (Demo.frames, Demo.masks, Demo.boxes), Demo.out.2) /\
  exists new : list call,
    calls Demo.out.2 = calls Demo.w0 ++ new /\
    length (box_prompts new) = (length Demo.masks - 1)%nat /\
    forall (i : nat) (x y bw bh : Z),
      (0 < i < length Demo.masks)%nat ->
      Demo.boxes !! i = Some (x, y, bw, bh) ->
      box_prompts new !! (i - 1)%nat = Some (x, y, x + bw, y + bh).
Proof.
  split; [vm_compute; reflexivity|].
  apply (forward_box_prompts Demo.load Demo.sam Demo.tracker
           Demo.paths 0 [(1, 1)] [1] (Some 0) (Some 2) Demo.w0
           Demo.frames Demo.masks Demo.boxes Demo.out.2).
  vm_compute; reflexivity.
Defined.

Lemma forward_three_frames_witness :
  Demo.load "0.jpg" = Ret (Demo.frame 10) /\
  Demo.load "1.jpg" = Ret (Demo.frame 20) /\
  Demo.load "2.jpg" = Ret (Demo.frame 30) /\
  Demo.sam (Demo.frame 10) (point_prompt [(1, 1)] [1])
    = Ret ([Demo.corner; Demo.top; Demo.full], [9 # 10; 8 # 10; 9 # 10]%Q) /\
  Np.getitem [Demo.corner; Demo.top; Demo.full] 0 = Ret Demo.corner /\
  has_shape 2 2 Demo.corner /\
  (forall d, Some 2 = Some d -> 0 < d) /\
  Demo.tracker ["0.jpg"; "1.jpg"; "2.jpg"]
      (get_box_from_mask (dilation (Some 2) (binarize Demo.corner)))
    = Ret Demo.boxes /\
  Demo.sam (Demo.frame 20) (box_prompt (sam_box_of (1, 0, 2, 2)))
    = Ret ([Demo.full; Demo.top; Demo.corner], [1 # 2; 1 # 2; 1 # 2]%Q) /\
  [Demo.full; Demo.top; Demo.corner] <> [] /\
  Forall (has_shape 2 2) [Demo.full; Demo.top; Demo.corner] /\
  Demo.sam (Demo.frame 30) (box_prompt (sam_box_of (2, 0, 2, 2)))
    = Ret ([Demo.full; Demo.top; Demo.corner], [1 # 2; 1 # 2; 1 # 2]%Q) /\
  exists (m1 m2 : Mask) (w' : world),
    Demo.run_forward ["0.jpg"; "1.jpg"; "2.jpg"] 0 [(1, 1)] [1]
                     (Some 0) (Some 2) Demo.w0
    = (Ret ([Demo.frame 10; Demo.frame 20; Demo.frame 30],
            [dilation (Some 2) (binarize Demo.corner); m1; m2],
            [(0, 0, 2, 2); (1, 0, 2, 2); (2, 0, 2, 2)]), w').
Proof.
  assert (forall d : Z, Some 2 = Some d -> 0 < d) as Hd
    by (intros d [= <-]; lia).
  assert (Forall (has_shape 2 2) [Demo.full; Demo.top; Demo.corner]) as Hs
    by repeat constructor.
  assert ([Demo.full; Demo.top; Demo.corner] <> []) as Hne by discriminate.
  repeat (split; [first [reflexivity | assumption
                        | repeat constructor]|]).
  apply (forward_three_frames Demo.load Demo.sam Demo.tracker
           "0.jpg" "1.jpg" "2.jpg"
           (Demo.frame 10) (Demo.frame 20) (Demo.frame 30)
           [(1, 1)] [1] 0 (Some 2)
           [Demo.corner; Demo.top; Demo.full] [9 # 10; 8 # 10; 9 # 10]%Q
           Demo.corner (0, 0, 2, 2) (1, 0, 2, 2) (2, 0, 2, 2)
           [Demo.full; Demo.top; Demo.corner] [Demo.full; Demo.top; Demo.corner]
           [1 # 2; 1 # 2; 1 # 2]%Q [1 # 2; 1 # 2; 1 # 2]%Q 2 2 Demo.w0);
    first [reflexivity | assumption | repeat constructor].
Defined.

(** * Further properties of the controller *)

Lemma getitem_negative {A} (a : list A) (i : Z) :
  0 <= i < Z.of_nat (length a) ->
  Np.getitem a (i - Z.of_nat (length a)) = Np.getitem a i.
Proof.
  intros Hi. unfold Np.getitem. repeat case_decide; try lia.
  by replace (i - Z.of_nat (length a) + Z.of_nat (length a)) with i by lia.
Qed.

Lemma getitem_out_of_range {A} (a : list A) (i : Z) :
  ~ (- Z.of_nat (length a) <= i < Z.of_nat (length a)) ->
  Np.getitem a i = Raise IndexError.
Proof.
  intros Hi. unfold Np.getitem. repeat case_decide; try lia; done.
Qed.

Lemma count_kind_app (k : call_kind) (cs1 cs2 : list call) :
  count_kind k (cs1 ++ cs2) = (count_kind k cs1 + count_kind k cs2)%nat.
Proof. unfold count_kind. by rewrite filter_app, length_app. Qed.

Lemma count_kind_step (k : call_kind) (dks : option Z) (st : step) :
  count_kind k (step_calls dks st)
  = match k with
    | KLoad | KSetImage | KPredict | KResetImage => 1%nat
    | KDilate => match dks with Some _ => 1%nat | None => 0%nat end
    | _ => 0%nat
    end.
Proof. by destruct k, dks. Qed.

Lemma count_kind_steps (k : call_kind) (dks : option Z) (sts : list step) :
  count_kind k (concat (step_calls dks <$> sts))
  = match k with
    | KLoad | KSetImage | KPredict | KResetImage => length sts
    | KDilate => match dks with Some _ => length sts | None => 0%nat end
    | _ => 0%nat
    end.
Proof.
  induction sts as [|st sts IH]; [by destruct k, dks|].
  rewrite fmap_cons. cbn [concat length].
  rewrite count_kind_app, IH, count_kind_step. by destruct k, dks.
Qed.

Lemma count_kind_run (k : call_kind) (ps : list string)
    (coords : list (Z * Z)) (labels : list Z) (dks : option Z) (r : run) :
  count_kind k (run_calls ps coords labels dks r)
  = match k with
    | KLoad | KSetImage | KPredict | KResetImage => S (length (steps r))
    | KDilate =>
        match dks with Some _ => S (length (steps r)) | None => 0%nat end
    | KTracker | KSave => 1%nat
    | KInpaint => 0%nat
    end.
Proof.
  unfold run_calls, key_stage_calls.
  rewrite !count_kind_app, count_kind_steps.
  change (CallLoad (key_frame_p r)
          :: segment_calls (key_frame r) (point_prompt coords labels)
             ++ dilate_calls dks (binarize (key_sel r)))
    with ([CallLoad (key_frame_p r); CallSetImage (key_frame r);
           CallPredict (point_prompt coords labels); CallResetImage]
          ++ dilate_calls dks (binarize (key_sel r))).
  rewrite count_kind_app. by destruct k, dks.
Qed.

Lemma count_kind_nil (k : call_kind) : count_kind k [] = 0%nat.
Proof. done. Qed.

Lemma count_kind_cons (k : call_kind) (c : call) (cs : list call) :
  count_kind k (c :: cs)
  = ((if decide (kind_of c = k) then 1 else 0) + count_kind k cs)%nat.
Proof. unfold count_kind. rewrite filter_cons. by case_decide. Qed.

Ltac count_solve :=
  cbn [snd calls log]; unfold segment_calls, dilate_calls; cbn [app];
  rewrite ?count_kind_app, ?count_kind_cons, ?count_kind_nil;
  cbn [kind_of]; repeat (case_decide; try congruence);
  repeat split; first [done | lia].

Section MoreOfForward.

Variable load_img : string -> outcome Image.
Variable sam_predict : Image -> Prompt -> outcome (list BoolMask * list Q).
Variable get_box_using_ostrack : list string -> Box -> outcome (list Box).

(** With no frame path at all, [forward] raises before any call: the
    assertion error for a key-frame index other than 0, else the index
    error of [frame_ps[0]]. *)
Theorem forward_no_frames (kidx : Z) (coords : list (Z * Z))
    (labels : list Z) (kmi dks : option Z) (w : world) :
  forward load_img sam_predict get_box_using_ostrack
          [] kidx coords labels kmi dks w
  = (Raise (if bool_decide (kidx = 0) then IndexError
            else AssertionError "Only support key frame at the beginning."),
     w).
Proof.
  rewrite forward_run, key_frame_stage_run.
  case_bool_decide as Hk; [|done]. by subst kidx.
Qed.

(** A manual mask index outside [-n, n), for the [n] candidates of the key
    frame, makes [forward] raise the index error after the segmentor has
    released the key frame: no file is written and the tracker is not
    called. *)
Theorem forward_manual_index_out_of_range (ps : list string)
    (coords : list (Z * Z)) (labels : list Z) (i : Z) (dks : option Z)
    (w : world) (p : string) (kf : Image)
    (kms : list BoolMask) (kss : list Q) :
  ps !! 0%nat = Some p -> load_img p = Ret kf ->
  sam_predict kf (point_prompt coords labels) = Ret (kms, kss) ->
  ~ (- Z.of_nat (length kms) <= i < Z.of_nat (length kms)) ->
  forward load_img sam_predict get_box_using_ostrack
          ps 0 coords labels (Some i) dks w
  = (Raise IndexError,
     {| sam_image := None; files := files w;
        calls := calls w
                 ++ CallLoad p
                    :: segment_calls kf (point_prompt coords labels) |}).
Proof.
  intros Hp Hload Hpred Hi. apply getitem_0 in Hp.
  rewrite forward_run, key_frame_stage_run.
  rewrite bool_decide_eq_true_2 by done.
  rewrite Hp, Hload, Hpred. cbn zeta. unfold key_selection.
  rewrite (getitem_out_of_range kms i Hi).
  by rewrite <- (assoc_L (++)).
Qed.

(** Manual mask indices count from the end when negative: when the
    segmentor always returns [n] candidates, the indices [i] and [i - n]
    give the same run. *)
Theorem forward_negative_manual_index (n : nat) (ps : list string)
    (kidx : Z) (coords : list (Z * Z)) (labels : list Z) (i : Z)
    (dks : option Z) (w : world) :
  (forall img pr masks scores,
     sam_predict img pr = Ret (masks, scores) -> length masks = n) ->
  0 <= i < Z.of_nat n ->
  forward load_img sam_predict get_box_using_ostrack
          ps kidx coords labels (Some (i - Z.of_nat n)) dks w
  = forward load_img sam_predict get_box_using_ostrack
            ps kidx coords labels (Some i) dks w.
Proof.
  intros Hn Hi. rewrite !forward_run, !key_frame_stage_run.
  case_bool_decide; [|done].
  destruct (Np.getitem ps kidx) as [p|e]; [|done].
  destruct (load_img p) as [kf|e]; [|done].
  destruct (sam_predict kf _) as [[kms kss]|e] eqn:Hpred; [|done].
  cbn zeta. unfold key_selection.
  rewrite <- (Hn _ _ _ _ Hpred) in *. by rewrite getitem_negative.
Qed.

(** A run that returns gives as many frames as masks: one for the key
    frame and one for each pair of the zip of the paths after the first with
    the tracked boxes after the first, so frames the tracker returned no box
    for are left out, and a tracker that returns no box at all leaves the
    key frame alone. The boxes are returned as the tracker gave them for the
    box around the first mask. *)
Theorem forward_lengths (ps : list string) (kidx : Z)
    (coords : list (Z * Z)) (labels : list Z) (kmi dks : option Z)
    (w : world) (frames : list Image) (masks : list Mask)
    (boxes : list Box) (w' : world) :
  forward load_img sam_predict get_box_using_ostrack
          ps kidx coords labels kmi dks w
    = (Ret (frames, masks, boxes), w') ->
  length frames = length masks /\
  length masks = S (min (length (drop 1 ps)) (length (drop 1 boxes))) /\
  (boxes = [] -> length masks = 1%nat) /\
  exists m0, masks !! 0%nat = Some m0 /\
             get_box_using_ostrack ps (get_box_from_mask m0) = Ret boxes.
Proof.
  intros Hrun. apply forward_Ret_iff in Hrun
    as (_ & r & (_ & Htr & Htodo & _) & -> & -> & _).
  unfold run_frames, run_masks. cbn [length]. rewrite !length_fmap.
  apply (f_equal length) in Htodo.
  rewrite length_fmap, length_zip in Htodo.
  split; [done|]. split; [by f_equal|]. split.
  - intros ->. cbn in Htodo. rewrite Nat.min_0_r in Htodo.
    by rewrite Htodo.
  - by exists (key_mask r).
Qed.

Lemma chained_loaded (dks : option Z) (sts : list step) (ref_mask : Mask)
    (ps : list string) (bs : list Box) :
  chained load_img sam_predict dks ref_mask sts ->
  st_todo <$> sts = zip ps bs ->
  Forall2 (fun p f => load_img p = Ret f)
          (take (length sts) ps) (st_frame <$> sts).
Proof.
  revert ref_mask ps bs.
  induction sts as [|st sts IH]; intros ref_mask ps bs Hch Htodo.
  - constructor.
  - destruct ps as [|p ps], bs as [|b bs]; try done.
    cbn in Htodo. injection Htodo as Hp _ Htodo.
    destruct Hch as [(Hload & _) Hch].
    cbn [length take]. rewrite fmap_cons. constructor.
    + by rewrite <- Hp.
    + by eapply IH.
Qed.

(** The frames of a run that returns are the images loaded from the
    leading paths, in the order of the paths. *)
Theorem forward_frames_loaded (ps : list string) (kidx : Z)
    (coords : list (Z * Z)) (labels : list Z) (kmi dks : option Z)
    (w : world) (frames : list Image) (masks : list Mask)
    (boxes : list Box) (w' : world) :
  forward load_img sam_predict get_box_using_ostrack
          ps kidx coords labels kmi dks w
    = (Ret (frames, masks, boxes), w') ->
  Forall2 (fun p f => load_img p = Ret f) (take (length frames) ps) frames.
Proof.
  intros Hrun. apply forward_Ret_iff in Hrun
    as (_ & r & ((Hp & Hload & _) & _ & Htodo & Hch) & -> & _ & _).
  unfold run_frames. destruct ps as [|p0 ps]; [done|].
  injection Hp as ->. cbn [length take]. constructor; [done|].
  rewrite length_fmap. cbn in Htodo. by eapply chained_loaded.
Qed.

(** When [forward] returns, the segmentor's context is empty and the files
    are those there were before plus "mask.png", which holds the first mask
    returned. *)
Theorem forward_end_state (ps : list string) (kidx : Z)
    (coords : list (Z * Z)) (labels : list Z) (kmi dks : option Z)
    (w : world) (frames : list Image) (masks : list Mask)
    (boxes : list Box) (w' : world) :
  forward load_img sam_predict get_box_using_ostrack
          ps kidx coords labels kmi dks w
    = (Ret (frames, masks, boxes), w') ->
  sam_image w' = None /\
  exists m0, masks !! 0%nat = Some m0 /\
             files w' = <["mask.png" := m0]> (files w).
Proof.
  intros Hrun. apply forward_Ret_iff in Hrun
    as (_ & r & _ & _ & -> & ->).
  split; [done|]. by exists (key_mask r).
Qed.

(** The calls of a run that returns [n] masks: [n] loads, [n] set-image,
    [n] predict and [n] reset-image calls, [n] dilations if a kernel size
    is set and none otherwise, one write, one call of the tracker, and no
    call of the inpainter. *)
Theorem forward_call_counts (ps : list string) (kidx : Z)
    (coords : list (Z * Z)) (labels : list Z) (kmi dks : option Z)
    (w : world) (frames : list Image) (masks : list Mask)
    (boxes : list Box) (w' : world) :
  forward load_img sam_predict get_box_using_ostrack
          ps kidx coords labels kmi dks w
    = (Ret (frames, masks, boxes), w') ->
  exists new : list call,
    calls w' = calls w ++ new /\
    forall k : call_kind,
      count_kind k new
      = match k with
        | KLoad | KSetImage | KPredict | KResetImage => length masks
        | KDilate => match dks with Some _ => length masks | None => 0%nat end
        | KTracker | KSave => 1%nat
        | KInpaint => 0%nat
        end.
Proof.
  intros Hrun. apply forward_Ret_iff in Hrun
    as (_ & r & _ & _ & -> & ->).
  exists (run_calls ps coords labels dks r). split; [done|].
  intros k. rewrite count_kind_run. unfold run_masks. cbn [length].
  by rewrite length_fmap.
Qed.

(** Whatever its outcome, the loop only adds calls; none of them is a write,
    a tracker call or an inpainter call, every set-image is followed by its
    predict, and at most one set-image is left without its reset-image. *)
Lemma propagate_counts (dks : option Z) (todo : list (string * Box))
    (ref_mask : Mask) (all_mask : list Mask) (all_frame : list Image)
    (w : world) :
  exists new,
    calls (propagate load_img sam_predict dks ref_mask all_mask all_frame
                     todo w).2 = calls w ++ new /\
    count_kind KInpaint new = 0%nat /\ count_kind KTracker new = 0%nat /\
    count_kind KSave new = 0%nat /\
    count_kind KPredict new = count_kind KSetImage new /\
    (count_kind KResetImage new <= count_kind KSetImage new
     <= S (count_kind KResetImage new))%nat.
Proof.
  revert ref_mask all_mask all_frame w.
  induction todo as [|[p b] todo IH]; intros ref_mask all_mask all_frame w.
  - exists []. rewrite app_nil_r. count_solve.
  - rewrite propagate_cons.
    destruct (load_img p) as [frame|e].
    2: { exists [CallLoad p]. count_solve. }
    destruct (sam_predict frame _) as [[cands scores]|e].
    2: { eexists. cbn [snd calls]. rewrite <- (assoc_L (++)).
         split; [done|]. count_solve. }
    destruct (mask_selection _ _ _ _) as [sel|e].
    2: { eexists. cbn [snd calls]. rewrite <- (assoc_L (++)).
         split; [done|]. count_solve. }
    cbn zeta.
    destruct (dilated dks sel) as [mask|e].
    2: { eexists. cbn [snd calls]. rewrite <- !(assoc_L (++)).
         split; [done|]. destruct dks; count_solve. }
    match goal with
    | |- context [propagate _ _ _ ?r ?am ?af _ ?w0] =>
        destruct (IH r am af w0) as (new & Hc & H1 & H2 & H3 & H4 & H5)
    end.
    eexists. rewrite Hc. cbn [calls]. rewrite <- !(assoc_L (++)).
    split; [done|]. rewrite !count_kind_app.
    destruct dks; count_solve.
Qed.

(** Whatever its arguments and its outcome, [forward] never calls the
    inpainter, calls the tracker at most once and writes at most once; every
    set-image is followed by its predict, and at most one image is left in
    the segmentor without its reset-image. *)
Theorem forward_call_discipline (ps : list string) (kidx : Z)
    (coords : list (Z * Z)) (labels : list Z) (kmi dks : option Z)
    (w : world) :
  exists new : list call,
    calls (forward load_img sam_predict get_box_using_ostrack
                   ps kidx coords labels kmi dks w).2 = calls w ++ new /\
    count_kind KInpaint new = 0%nat /\
    (count_kind KTracker new <= 1)%nat /\ (count_kind KSave new <= 1)%nat /\
    count_kind KPredict new = count_kind KSetImage new /\
    (count_kind KResetImage new <= count_kind KSetImage new
     <= S (count_kind KResetImage new))%nat.
Proof.
  rewrite forward_run, key_frame_stage_run.
  case_bool_decide.
  2: { exists []. rewrite app_nil_r. count_solve. }
  destruct (Np.getitem ps kidx) as [p|e].
  2: { exists []. rewrite app_nil_r. count_solve. }
  destruct (load_img p) as [kf|e].
  2: { exists [CallLoad p]. count_solve. }
  destruct (sam_predict kf _) as [[kms kss]|e].
  2: { eexists. cbn [snd calls]. rewrite <- (assoc_L (++)).
       split; [done|]. count_solve. }
  cbn zeta.
  destruct (key_selection kmi kms kss) as [sel|e].
  2: { eexists. cbn [snd calls]. rewrite <- (assoc_L (++)).
       split; [done|]. count_solve. }
  destruct (dilated dks (binarize sel)) as [km|e].
  2: { eexists. cbn [mbind outcome_bind snd calls].
       rewrite <- !(assoc_L (++)).
       split; [done|]. destruct dks; count_solve. }
  cbn [mbind outcome_bind sam_image files calls]. cbn zeta.
  destruct (get_box_using_ostrack ps _) as [all_box|e].
  2: { eexists. cbn [snd calls]. rewrite <- !(assoc_L (++)).
       split; [done|]. rewrite !count_kind_app.
       destruct dks; count_solve. }
  match goal with
  | |- context [propagate _ _ ?d ?r ?am ?af ?td ?w0] =>
      destruct (propagate_counts d td r am af w0)
        as (new & Hc & H1 & H2 & H3 & H4 & H5);
      destruct (propagate load_img sam_predict d r am af td w0)
        as [[[am' af']|e] w3]
  end; cbn [snd calls] in *; eexists; rewrite Hc;
    rewrite <- !(assoc_L (++)); (split; [done|]);
    rewrite !count_kind_app; destruct dks; count_solve.
Qed.

(** Whatever its arguments and its outcome, [forward] writes no file other
    than "mask.png". *)
Theorem forward_writes_only_mask_png (ps : list string) (kidx : Z)
    (coords : list (Z * Z)) (labels : list Z) (kmi dks : option Z)
    (w : world) (p : string) :
  p <> "mask.png" ->
  files (forward load_img sam_predict get_box_using_ostrack
                 ps kidx coords labels kmi dks w).2 !! p = files w !! p.
Proof.
  intros Hp. rewrite forward_run, key_frame_stage_run.
  case_bool_decide; [|done].
  destruct (Np.getitem ps kidx) as [p0|e]; [|done].
  destruct (load_img p0) as [kf|e]; [|done].
  destruct (sam_predict kf _) as [[kms kss]|e]; [|done].
  cbn zeta.
  destruct (key_selection kmi kms kss) as [sel|e]; [|done].
  destruct (dilated dks (binarize sel)) as [km|e]; [|done].
  cbn [mbind outcome_bind sam_image files calls]. cbn zeta.
  destruct (get_box_using_ostrack ps _) as [all_box|e].
  2: { cbn. by rewrite lookup_insert_ne. }
  match goal with
  | |- context [propagate _ _ ?d ?r ?am ?af ?td ?w0] =>
      destruct (propagate_effects load_img sam_predict d td r am af w0)
        as (Hf & _);
      destruct (propagate load_img sam_predict d r am af td w0)
        as [[[am' af']|e] w3]
  end; cbn [snd files] in *; rewrite Hf; by rewrite lookup_insert_ne.
Qed.

(** A prediction that raises on the key frame ends [forward] with that
    exception: the key frame stays in the segmentor's context, no file has
    been written and the tracker has not been called. *)
Theorem forward_key_predict_failure (ps : list string)
    (coords : list (Z * Z)) (labels : list Z) (kmi dks : option Z)
    (w : world) (p : string) (kf : Image) (e : exn) :
  ps !! 0%nat = Some p -> load_img p = Ret kf ->
  sam_predict kf (point_prompt coords labels) = Raise e ->
  forward load_img sam_predict get_box_using_ostrack
          ps 0 coords labels kmi dks w
  = (Raise e,
     {| sam_image := Some kf; files := files w;
        calls := calls w
                 ++ [CallLoad p; CallSetImage kf;
                     CallPredict (point_prompt coords labels)] |}).
Proof.
  intros Hp Hload Hpred. apply getitem_0 in Hp.
  rewrite forward_run, key_frame_stage_run.
  rewrite bool_decide_eq_true_2 by done.
  rewrite Hp, Hload, Hpred. by rewrite <- (assoc_L (++)).
Qed.

(** A prediction that raises on the second frame ends [forward] with that
    exception after the key-frame mask has been written: the second frame
    stays in the segmentor's context. *)
Theorem forward_second_predict_failure (ps : list string) (kidx : Z)
    (coords : list (Z * Z)) (labels : list Z) (kmi dks : option Z)
    (w w1 : world) (kf : Image) (km : Mask) (boxes : list Box)
    (p1 : string) (b1 : Box) (f1 : Image) (e : exn) :
  key_frame_stage load_img sam_predict ps kidx coords labels kmi dks w
    = (Ret (kf, km), w1) ->
  get_box_using_ostrack ps (get_box_from_mask km) = Ret boxes ->
  ps !! 1%nat = Some p1 -> boxes !! 1%nat = Some b1 ->
  load_img p1 = Ret f1 ->
  sam_predict f1 (box_prompt (sam_box_of b1)) = Raise e ->
  exists w',
    forward load_img sam_predict get_box_using_ostrack
            ps kidx coords labels kmi dks w = (Raise e, w') /\
    sam_image w' = Some f1 /\ files w' !! "mask.png" = Some km.
Proof.
  intros Hkey Htr Hp1 Hb1 Hload Hpred.
  rewrite forward_run, Hkey. cbn zeta. rewrite Htr.
  destruct ps as [|p0 [|p1' ps]]; try done.
  destruct boxes as [|b0 [|b1' boxes]]; try done.
  injection Hp1 as ->. injection Hb1 as ->.
  cbn [drop zip zip_with]. rewrite propagate_cons, Hload, Hpred.
  eexists. split; [done|]. cbn. split; [done|]. apply lookup_insert_eq.
Qed.

End MoreOfForward.

(** ** The selection policy at its edges *)

Lemma getitem_nat_inv {A} (a : list A) (i : nat) (x : A) :
  Np.getitem a (Z.of_nat i) = Ret x -> a !! i = Some x.
Proof.
  unfold Np.getitem. repeat case_decide; try lia; try done.
  rewrite Nat2Z.id. by destruct (a !! i) as [y|]; intros [= <-].
Qed.

(** [mask_selection] never makes a mask up: what it returns is one of the
    candidates it was given, and it returns only with the interactive mode
    off. *)
Theorem mask_selection_returns_candidate {A} {A_int : Np.NpInt A}
    (masks : list (Raster A)) (scores : list Q) (ref_mask : option Mask)
    (interactive : bool) (m : Raster A) :
  mask_selection masks scores ref_mask interactive = Ret m ->
  interactive = false /\ m ∈ masks.
Proof.
  intros Hsel. split; [by destruct interactive|].
  by eapply mask_selection_elem.
Qed.

(** The failures of [mask_selection] on degenerate input: the interactive
    mode is not implemented, whatever the other arguments; an empty batch of
    candidates with a reference mask, and an empty array of scores without
    one, are value errors. *)
Theorem mask_selection_failures {A} {A_int : Np.NpInt A}
    (masks : list (Raster A)) (scores : list Q) (ref_mask : option Mask)
    (r : Mask) :
  mask_selection masks scores ref_mask true = Raise NotImplementedError /\
  mask_selection (@nil (Raster A)) scores (Some r) false = Raise ValueError /\
  mask_selection masks [] None false = Raise ValueError.
Proof. done. Qed.

(** A reference mask whose number of rows differs from the candidates',
    neither being 1, cannot be subtracted: [mask_selection] raises the value
    error of the broadcast. *)
Theorem mask_selection_shape_mismatch {A} {A_int : Np.NpInt A}
    (H W H' W' : nat) (m : Raster A) (masks : list (Raster A))
    (scores : list Q) (ref_mask : Mask) :
  has_shape H W m -> has_shape H' W' ref_mask ->
  H <> H' -> H <> 1%nat -> H' <> 1%nat ->
  mask_selection (m :: masks) scores (Some ref_mask) false = Raise ValueError.
Proof.
  intros [Hm _] [Hr _] Hne H1 H1'.
  assert (Np.broadcast2 (fun (a : A) (b : Z) =>
            Np.sq_err (Np.astype_int32 a) (Np.astype_int32 b)) m ref_mask
          = None) as Hb.
  { unfold Np.broadcast2, Np.broadcast.
    rewrite decide_False by congruence.
    destruct m as [|r1 [|r2 m]], ref_mask as [|q1 [|q2 ref_mask]];
      cbn in *; try done; congruence. }
  unfold mask_selection, Np.mse. cbn [mapM]. by rewrite Hb.
Qed.

(** Without a reference mask, a mask [mask_selection] returns is a candidate
    whose score is the greatest, the first such. *)
Lemma mask_selection_score_inv {A} {A_int : Np.NpInt A}
    (masks : list (Raster A)) (scores : list Q) (m : Raster A) :
  mask_selection masks scores None false = Ret m ->
  exists (idx : nat) (s : Q),
    masks !! idx = Some m /\ scores !! idx = Some s /\
    (forall j x, scores !! j = Some x -> (x <= s)%Q) /\
    (forall j x, (j < idx)%nat -> scores !! j = Some x -> (x < s)%Q).
Proof.
  unfold mask_selection. destruct scores as [|s0 rest]; [done|].
  cbn [Np.argmax mbind outcome_bind]. intros Hget.
  apply getitem_nat_inv in Hget.
  destruct (argmax_loop_spec rest [s0] s0 0) as (v & Hv & Hmax & Hfirst).
  - done.
  - intros [|j] x [= <-]. apply Qle_refl.
  - intros j x Hj. lia.
  - cbn [length app] in *. eauto 10.
Qed.

Section ScoresAndKeyFrame.

Variable load_img : string -> outcome Image.
Variable get_box_using_ostrack : list string -> Box -> outcome (list Box).

Lemma propagate_same_masks
    (sam1 sam2 : Image -> Prompt -> outcome (list BoolMask * list Q))
    (dks : option Z) (todo : list (string * Box)) (ref_mask : Mask)
    (all_mask : list Mask) (all_frame : list Image) (w : world) :
  same_masks sam1 sam2 ->
  propagate load_img sam1 dks ref_mask all_mask all_frame todo w
  = propagate load_img sam2 dks ref_mask all_mask all_frame todo w.
Proof.
  intros Hsame. revert ref_mask all_mask all_frame w.
  induction todo as [|[p b] todo IH]; intros ref_mask all_mask all_frame w;
    [done|].
  rewrite !propagate_cons.
  destruct (load_img p) as [frame|e]; [|done].
  specialize (Hsame frame (box_prompt (sam_box_of b))).
  destruct (sam1 frame _) as [[c1 s1]|e1], (sam2 frame _) as [[c2 s2]|e2];
    try done; [|by subst].
  cbn in Hsame. subst c2. cbn zeta.
  change (mask_selection (binarize <$> c1) s2 (Some ref_mask) false)
    with (mask_selection (binarize <$> c1) s1 (Some ref_mask) false).
  destruct (mask_selection _ _ _ _) as [sel|e]; [|done].
  destruct (dilated dks sel) as [mask|e]; [|done].
  apply IH.
Qed.

(** With a manual mask index the confidence scores are never looked at: two
    segmentors that return the same candidate masks give the same run,
    whatever scores they attach. *)
Theorem forward_scores_unused
    (sam1 sam2 : Image -> Prompt -> outcome (list BoolMask * list Q))
    (ps : list string) (kidx : Z) (coords : list (Z * Z))
    (labels : list Z) (i : Z) (dks : option Z) (w : world) :
  same_masks sam1 sam2 ->
  forward load_img sam1 get_box_using_ostrack
          ps kidx coords labels (Some i) dks w
  = forward load_img sam2 get_box_using_ostrack
            ps kidx coords labels (Some i) dks w.
Proof.
  intros Hsame. rewrite !forward_run, !key_frame_stage_run.
  case_bool_decide; [|done].
  destruct (Np.getitem ps kidx) as [p|e]; [|done].
  destruct (load_img p) as [kf|e]; [|done].
  pose proof (Hsame kf (point_prompt coords labels)) as Hk.
  destruct (sam1 kf _) as [[c1 s1]|e1], (sam2 kf _) as [[c2 s2]|e2];
    try done; [|by subst].
  cbn in Hk. subst c2. cbn zeta. unfold key_selection.
  destruct (Np.getitem c1 i) as [sel|e]; [|done].
  destruct (dilated dks (binarize sel)) as [km|e]; [|done].
  cbn [mbind outcome_bind sam_image files calls]. cbn zeta.
  destruct (get_box_using_ostrack ps _) as [all_box|e]; [|done].
  by rewrite (propagate_same_masks sam1 sam2).
Qed.

(** Without a manual mask index, the first mask of a run that returns comes
    from the key-frame candidate of greatest confidence score, the first
    such in candidate order, binarized and dilated if a kernel size is
    set. *)
Theorem forward_key_mask_by_score
    (sam_predict : Image -> Prompt -> outcome (list BoolMask * list Q))
    (ps : list string) (kidx : Z) (coords : list (Z * Z))
    (labels : list Z) (dks : option Z) (w : world)
    (frames : list Image) (masks : list Mask) (boxes : list Box)
    (w' : world) :
  forward load_img sam_predict get_box_using_ostrack
          ps kidx coords labels None dks w
    = (Ret (frames, masks, boxes), w') ->
  exists (kf : Image) (kms : list BoolMask) (kss : list Q)
         (idx : nat) (m : BoolMask) (s : Q) (m0 : Mask),
    frames !! 0%nat = Some kf /\
    sam_predict kf (point_prompt coords labels) = Ret (kms, kss) /\
    kms !! idx = Some m /\ kss !! idx = Some s /\
    (forall j x, kss !! j = Some x -> (x <= s)%Q) /\
    (forall j x, (j < idx)%nat -> kss !! j = Some x -> (x < s)%Q) /\
    masks !! 0%nat = Some m0 /\ dilated dks (binarize m) = Ret m0.
Proof.
  intros Hrun. apply forward_Ret_iff in Hrun
    as (_ & r & ((_ & _ & Hpred & Hsel & Hdil) & _) & -> & -> & _).
  apply mask_selection_score_inv in Hsel
    as (idx & s & Hm & Hs & Hmax & Hfirst).
  exists (key_frame r), (key_masks r), (key_scores r), idx, (key_sel r), s,
         (key_mask r).
  by repeat split.
Qed.

Lemma run_mask_from_candidates
    (sam_predict : Image -> Prompt -> outcome (list BoolMask * list Q))
    (ps : list string) (kidx : Z) (coords : list (Z * Z))
    (labels : list Z) (kmi dks : option Z) (w : world)
    (frames : list Image) (masks : list Mask) (boxes : list Box)
    (w' : world) :
  forward load_img sam_predict get_box_using_ostrack
          ps kidx coords labels kmi dks w
    = (Ret (frames, masks, boxes), w') ->
  forall (i : nat) (m : Mask),
    masks !! i = Some m ->
    exists (frame : Image) (pr : Prompt) (cands : list BoolMask)
           (scores : list Q) (c : BoolMask),
      frames !! i = Some frame /\
      sam_predict frame pr = Ret (cands, scores) /\
      c ∈ cands /\ dilated dks (binarize c) = Ret m.
Proof.
  intros Hrun i m Hm. apply forward_Ret_iff in Hrun
    as (_ & r & ((_ & _ & Hpred & Hsel & Hdil) & _ & _ & Hch) & -> & -> & _).
  destruct i as [|j].
  - injection Hm as <-.
    exists (key_frame r), (point_prompt coords labels), (key_masks r),
           (key_scores r), (key_sel r).
    repeat split; try done.
    unfold key_selection in Hsel. destruct kmi.
    + by eapply getitem_elem.
    + by eapply mask_selection_elem.
  - change ((st_mask <$> steps r) !! j = Some m) in Hm.
    apply list_lookup_fmap_Some in Hm as (st & -> & Hst).
    destruct (chained_lookup _ _ _ _ _ _ _ Hch Hst)
      as (prev & _ & _ & Hp & Hs & Hd).
    apply mask_selection_elem, list_elem_of_fmap in Hs as (c & Hc & Hin).
    exists (st_frame st), (box_prompt (sam_box_of (st_box st))),
           (st_cands st), (st_scores st), c.
    rewrite <- Hc. repeat split; try done.
    change ((st_frame <$> steps r) !! j = Some (st_frame st)).
    by rewrite list_lookup_fmap, Hst.
Qed.

(** Every mask of a run that returns comes from the segmentor: it is one of
    the candidates predicted for its frame, binarized and dilated if a kernel
    size is set. *)
Theorem forward_masks_from_candidates
    (sam_predict : Image -> Prompt -> outcome (list BoolMask * list Q))
    (ps : list string) (kidx : Z) (coords : list (Z * Z))
    (labels : list Z) (kmi dks : option Z) (w : world)
    (frames : list Image) (masks : list Mask) (boxes : list Box)
    (w' : world) :
  forward load_img sam_predict get_box_using_ostrack
          ps kidx coords labels kmi dks w
    = (Ret (frames, masks, boxes), w') ->
  forall (i : nat) (m : Mask),
    masks !! i = Some m ->
    exists (frame : Image) (pr : Prompt) (cands : list BoolMask)
           (scores : list Q) (c : BoolMask),
      frames !! i = Some frame /\
      sam_predict frame pr = Ret (cands, scores) /\
      c ∈ cands /\ dilated dks (binarize c) = Ret m.
Proof. apply run_mask_from_candidates. Qed.

(** When the segmentor's candidates all have the shape (H, W), so has every
    mask of a run that returns. *)
Theorem forward_masks_shape
    (sam_predict : Image -> Prompt -> outcome (list BoolMask * list Q))
    (H W : nat) (ps : list string) (kidx : Z) (coords : list (Z * Z))
    (labels : list Z) (kmi dks : option Z) (w : world)
    (frames : list Image) (masks : list Mask) (boxes : list Box)
    (w' : world) :
  (forall img pr cands scores,
     sam_predict img pr = Ret (cands, scores) ->
     Forall (has_shape H W) cands) ->
  forward load_img sam_predict get_box_using_ostrack
          ps kidx coords labels kmi dks w
    = (Ret (frames, masks, boxes), w') ->
  Forall (has_shape H W) masks.
Proof.
  intros Hsam Hrun. apply Forall_lookup. intros i m Hm.
  destruct (run_mask_from_candidates _ _ _ _ _ _ _ _ _ _ _ _ Hrun i m Hm)
    as (frame & pr & cands & scores & c & _ & Hpred & Hc & Hd).
  eapply dilated_shape; [|exact Hd]. apply binarize_shape.
  pose proof (Hsam _ _ _ _ Hpred) as Hall.
  rewrite Forall_forall in Hall. by apply Hall.
Qed.

End ScoresAndKeyFrame.

(** ** Kernel sizes that disable the dilation *)


Section DilationDisabled.

Variable load_img : string -> outcome Image.
Variable sam_predict : Image -> Prompt -> outcome (list BoolMask * list Q).
Variable get_box_using_ostrack : list string -> Box -> outcome (list Box).







End DilationDisabled.

(** ** Construction *)

Section ConstructionFacts.

Variable build_ostrack_model :
  gmap string string -> outcome (list string -> Box -> outcome (list Box)).
Variable build_sam_model :
  gmap string string ->
  outcome (Image -> Prompt -> outcome (list BoolMask * list Q)).
Variable build_lama_model :
  gmap string string -> outcome (Image -> Mask -> outcome Image).

Lemma bind_kwargs_Ret (kwargs kwargs' : gmap string string) :
  bind_kwargs kwargs = Ret kwargs' -> kwargs' = kwargs.
Proof. unfold bind_kwargs. case_decide; [done|]. by intros [= <-]. Qed.

Lemma build_tracker_run (target : string) (kwargs : gmap string string)
    (l : list build_call) :
  build_tracker build_ostrack_model target kwargs l =
  match bind_kwargs kwargs with
  | Raise e => (Raise e, l)
  | Ret _ =>
      if bool_decide (target = "ostrack")
      then (build_ostrack_model kwargs, l ++ [BuildTracker kwargs])
      else (Raise (AssertionError "Only support sam now."), l)
  end.
Proof.
  unfold build_tracker, mbind, B_bind, lift_B, built.
  destruct (bind_kwargs kwargs) as [kw|e] eqn:Hkw; [|done].
  apply bind_kwargs_Ret in Hkw as ->. by case_bool_decide.
Qed.

Lemma build_segmentor_run (target : string) (kwargs : gmap string string)
    (l : list build_call) :
  build_segmentor build_sam_model target kwargs l =
  match bind_kwargs kwargs with
  | Raise e => (Raise e, l)
  | Ret _ =>
      if bool_decide (target = "sam")
      then (build_sam_model kwargs, l ++ [BuildSegmentor kwargs])
      else (Raise (AssertionError "Only support sam now."), l)
  end.
Proof.
  unfold build_segmentor, mbind, B_bind, lift_B, built.
  destruct (bind_kwargs kwargs) as [kw|e] eqn:Hkw; [|done].
  apply bind_kwargs_Ret in Hkw as ->. by case_bool_decide.
Qed.

Lemma build_inpainter_run (target : string) (kwargs : gmap string string)
    (l : list build_call) :
  build_inpainter build_lama_model target kwargs l =
  match bind_kwargs kwargs with
  | Raise e => (Raise e, l)
  | Ret _ =>
      if bool_decide (target = "lama")
      then (build_lama_model kwargs, l ++ [BuildInpainter kwargs])
      else (Raise (AssertionError "Only support lama now."), l)
  end.
Proof.
  unfold build_inpainter, mbind, B_bind, lift_B, built.
  destruct (bind_kwargs kwargs) as [kw|e] eqn:Hkw; [|done].
  apply bind_kwargs_Ret in Hkw as ->. by case_bool_decide.
Qed.

Lemma init_run (tt : string) (ta : option (gmap string string))
    (st : string) (sa : option (gmap string string))
    (it : string) (ia : option (gmap string string))
    (l : list build_call) :
  init build_ostrack_model build_sam_model build_lama_model
       tt ta st sa it ia l =
  match build_tracker build_ostrack_model tt
          (default default_tracker_build_args ta) l with
  | (Raise e, l1) => (Raise e, l1)
  | (Ret t, l1) =>
    match build_segmentor build_sam_model st
            (default default_segmentor_build_args sa) l1 with
    | (Raise e, l2) => (Raise e, l2)
    | (Ret s, l2) =>
      match build_inpainter build_lama_model it
              (default default_inpainter_build_args ia) l2 with
      | (Raise e, l3) => (Raise e, l3)
      | (Ret i, l3) => (Ret (mkRemoveAnythingVideo t s i), l3)
      end
    end
  end.
Proof.
  unfold init, mbind, B_bind, mret, B_ret.
  destruct (build_tracker _ _ _ l) as [[t|e] l1]; [|done].
  destruct (build_segmentor _ _ _ l1) as [[s|e] l2]; [|done].
  by destruct (build_inpainter _ _ _ l2) as [[i|e] l3].
Qed.

(** The constructor returns an object exactly when the three targets are
    "ostrack", "sam" and "lama", no build-arguments dictionary has a key
    that clashes with a parameter, and the three builders return for their
    (given or default) arguments; the object holds what they returned, and
    they were called in the order tracker, segmentor, inpainter. *)
Theorem init_Ret_iff (tt : string) (ta : option (gmap string string))
    (st : string) (sa : option (gmap string string))
    (it : string) (ia : option (gmap string string))
    (l l' : list build_call) (self : RemoveAnythingVideo) :
  init build_ostrack_model build_sam_model build_lama_model
       tt ta st sa it ia l = (Ret self, l')
  <-> tt = "ostrack" /\ st = "sam" /\ it = "lama" /\
      bind_kwargs (default default_tracker_build_args ta)
        = Ret (default default_tracker_build_args ta) /\
      bind_kwargs (default default_segmentor_build_args sa)
        = Ret (default default_segmentor_build_args sa) /\
      bind_kwargs (default default_inpainter_build_args ia)
        = Ret (default default_inpainter_build_args ia) /\
      build_ostrack_model (default default_tracker_build_args ta)
        = Ret (tracker self) /\
      build_sam_model (default default_segmentor_build_args sa)
        = Ret (segmentor self) /\
      build_lama_model (default default_inpainter_build_args ia)
        = Ret (inpainter self) /\
      l' = l ++ [BuildTracker (default default_tracker_build_args ta);
                 BuildSegmentor (default default_segmentor_build_args sa);
                 BuildInpainter (default default_inpainter_build_args ia)].
Proof.
  rewrite init_run, build_tracker_run. split.
  - destruct (bind_kwargs (default _ ta)) as [k1|e] eqn:H1; [|done].
    apply bind_kwargs_Ret in H1 as Heq1. subst k1.
    case_bool_decide as Ht; [|done].
    destruct (build_ostrack_model _) as [t|e] eqn:Hb1; [|done].
    rewrite build_segmentor_run.
    destruct (bind_kwargs (default _ sa)) as [k2|e] eqn:H2; [|done].
    apply bind_kwargs_Ret in H2 as Heq2. subst k2.
    case_bool_decide as Hs; [|done].
    destruct (build_sam_model _) as [s|e] eqn:Hb2; [|done].
    rewrite build_inpainter_run.
    destruct (bind_kwargs (default _ ia)) as [k3|e] eqn:H3; [|done].
    apply bind_kwargs_Ret in H3 as Heq3. subst k3.
    case_bool_decide as Hi; [|done].
    destruct (build_lama_model _) as [i|e] eqn:Hb3; [|done].
    intros [= <- <-]. cbn. rewrite <- !(assoc_L (++)). by repeat split.
  - intros (-> & -> & -> & H1 & H2 & H3 & Hb1 & Hb2 & Hb3 & ->).
    rewrite H1, bool_decide_eq_true_2, Hb1 by done.
    rewrite build_segmentor_run, H2, bool_decide_eq_true_2, Hb2 by done.
    rewrite build_inpainter_run, H3, bool_decide_eq_true_2, Hb3 by done.
    destruct self. cbn. by rewrite <- !(assoc_L (++)).
Qed.

(** An unsupported target is found out only when its turn comes: an
    unsupported tracker is rejected before any model is built (with a
    message that names sam), an unsupported segmentor after the tracker has
    been built, an unsupported inpainter after the tracker and the segmentor
    have been built. *)
Theorem init_unsupported_target (tt : string)
    (ta : gmap string string) (st : string) (sa : gmap string string)
    (it : string) (ia : gmap string string) (l : list build_call)
    (t : list string -> Box -> outcome (list Box))
    (s : Image -> Prompt -> outcome (list BoolMask * list Q)) :
  bind_kwargs ta = Ret ta -> bind_kwargs sa = Ret sa ->
  bind_kwargs ia = Ret ia ->
  (tt <> "ostrack" ->
   init build_ostrack_model build_sam_model build_lama_model
        tt (Some ta) st (Some sa) it (Some ia) l
   = (Raise (AssertionError "Only support sam now."), l)) /\
  (build_ostrack_model ta = Ret t -> st <> "sam" ->
   init build_ostrack_model build_sam_model build_lama_model
        "ostrack" (Some ta) st (Some sa) it (Some ia) l
   = (Raise (AssertionError "Only support sam now."),
      l ++ [BuildTracker ta])) /\
  (build_ostrack_model ta = Ret t -> build_sam_model sa = Ret s ->
   it <> "lama" ->
   init build_ostrack_model build_sam_model build_lama_model
        "ostrack" (Some ta) "sam" (Some sa) it (Some ia) l
   = (Raise (AssertionError "Only support lama now."),
      l ++ [BuildTracker ta; BuildSegmentor sa])).
Proof.
  intros H1 H2 H3. repeat split.
  - intros Ht. rewrite init_run, build_tracker_run. cbn [from_option id].
    by rewrite H1, bool_decide_eq_false_2.
  - intros Hb1 Hs. rewrite init_run, build_tracker_run. cbn [from_option id].
    rewrite H1, bool_decide_eq_true_2, Hb1 by done.
    rewrite build_segmentor_run, H2. by rewrite bool_decide_eq_false_2.
  - intros Hb1 Hb2 Hi. rewrite init_run, build_tracker_run. cbn [from_option id].
    rewrite H1, bool_decide_eq_true_2, Hb1 by done.
    rewrite build_segmentor_run, H2, bool_decide_eq_true_2, Hb2 by done.
    rewrite build_inpainter_run, H3, bool_decide_eq_false_2 by done.
    by rewrite <- (assoc_L (++)).
Qed.

End ConstructionFacts.

(** ** The further properties on the small world *)

Lemma forward_manual_index_out_of_range_witness :
  Demo.paths !! 0%nat = Some "0.jpg" /\
  Demo.load "0.jpg" = Ret (Demo.frame 10) /\
  Demo.sam (Demo.frame 10) (point_prompt [(1, 1)] [1])
    = Ret ([Demo.corner; Demo.top; Demo.full], [9 # 10; 8 # 10; 9 # 10]%Q) /\
  ~ (- Z.of_nat (length [Demo.corner; Demo.top; Demo.full]) <= 5
     < Z.of_nat (length [Demo.corner; Demo.top; Demo.full])) /\
  Demo.run_forward Demo.paths 0 [(1, 1)] [1] (Some 5) (Some 2) Demo.w0
  = (Raise IndexError,
     {| sam_image := None; files := files Demo.w0;
        calls := calls Demo.w0
                 ++ CallLoad "0.jpg"
                    :: segment_calls (Demo.frame 10)
                                     (point_prompt [(1, 1)] [1]) |}).
Proof.
  assert (~ (- Z.of_nat (length [Demo.corner; Demo.top; Demo.full]) <= 5
             < Z.of_nat (length [Demo.corner; Demo.top; Demo.full]))) as Hi
    by (cbn; lia).
  repeat (split; [first [reflexivity | assumption]|]).
  apply (forward_manual_index_out_of_range Demo.load Demo.sam Demo.tracker
           Demo.paths [(1, 1)] [1] 5 (Some 2) Demo.w0 "0.jpg" (Demo.frame 10)
           [Demo.corner; Demo.top; Demo.full] [9 # 10; 8 # 10; 9 # 10]%Q);
    first [reflexivity | assumption].
Defined.

Lemma forward_negative_manual_index_witness :
  (forall img pr masks scores,
     Demo.sam img pr = Ret (masks, scores) -> length masks = 3%nat) /\
  0 <= 2 < Z.of_nat 3 /\
  Demo.run_forward Demo.paths 0 [(1, 1)] [1] (Some (2 - Z.of_nat 3)) (Some 2)
                   Demo.w0
  = Demo.run_forward Demo.paths 0 [(1, 1)] [1] (Some 2) (Some 2) Demo.w0.
Proof.
  assert (forall img pr masks scores,
            Demo.sam img pr = Ret (masks, scores) -> length masks = 3%nat)
    as Hn.
  { intros img pr masks scores. unfold Demo.sam.
    destruct (box pr); intros [= <- _]; reflexivity. }
  split; [exact Hn|]. split; [lia|].
  apply (forward_negative_manual_index Demo.load Demo.sam Demo.tracker 3
           Demo.paths 0 [(1, 1)] [1] 2 (Some 2) Demo.w0 Hn). lia.
Defined.


(** The kernel sizes 0 and -1 on the small world: the run returns the
    masks of the run without a kernel size, after a dilation call on each
    of them. *)
Example forward_kernel_not_positive :
  Demo.out_zero.1 = Demo.out_none.1 /\
  Demo.out_neg.1 = Demo.out_none.1 /\
  Demo.out_none.1 = Ret (Demo.frames, Demo.masks_plain, Demo.boxes_plain) /\
  dilations (calls Demo.out_none.2) = [] /\
  dilations (calls Demo.out_zero.2)
    = [(binarize Demo.corner, 0); (binarize Demo.corner, 0);
       (binarize Demo.corner, 0)] /\
  dilations (calls Demo.out_neg.2)
    = [(binarize Demo.corner, -1); (binarize Demo.corner, -1);
       (binarize Demo.corner, -1)].
Proof. repeat split; vm_compute; reflexivity. Qed.

Lemma forward_lengths_witness :
  Demo2.out_short
    = (Ret (Demo2.frames_short, Demo2.masks_short, Demo2.boxes_short),
       Demo2.out_short.2) /\
  length Demo2.frames_short = length Demo2.masks_short /\
  length Demo2.masks_short
    = S (min (length (drop 1 Demo.paths))
             (length (drop 1 Demo2.boxes_short))) /\
  (Demo2.boxes_short = [] -> length Demo2.masks_short = 1%nat) /\
  exists m0, Demo2.masks_short !! 0%nat = Some m0 /\
             Demo2.tracker_short Demo.paths (get_box_from_mask m0)
             = Ret Demo2.boxes_short.
Proof.
  split; [vm_compute; reflexivity|].
  apply (forward_lengths Demo.load Demo.sam Demo2.tracker_short
           Demo.paths 0 [(1, 1)] [1] (Some 0) (Some 2) Demo.w0
           Demo2.frames_short Demo2.masks_short Demo2.boxes_short
           Demo2.out_short.2).
  vm_compute; reflexivity.
Defined.

Lemma forward_frames_loaded_witness :
  Demo.out = (Ret (Demo.frames, Demo.masks, Demo.boxes), Demo.out.2) /\
  Forall2 (fun p f => Demo.load p = Ret f)
          (take (length Demo.frames) Demo.paths) Demo.frames.
Proof.
  split; [vm_compute; reflexivity|].
  apply (forward_frames_loaded Demo.load Demo.sam Demo.tracker
           Demo.paths 0 [(1, 1)] [1] (Some 0) (Some 2) Demo.w0
           Demo.frames Demo.masks Demo.boxes Demo.out.2).
  vm_compute; reflexivity.
Defined.

Lemma forward_end_state_witness :
  Demo.out = (Ret (Demo.frames, Demo.masks, Demo.boxes), Demo.out.2) /\
  sam_image Demo.out.2 = None /\
  exists m0, Demo.masks !! 0%nat = Some m0 /\
             files Demo.out.2 = <["mask.png" := m0]> (files Demo.w0).
Proof.
  split; [vm_compute; reflexivity|].
  apply (forward_end_state Demo.load Demo.sam Demo.tracker
           Demo.paths 0 [(1, 1)] [1] (Some 0) (Some 2) Demo.w0
           Demo.frames Demo.masks Demo.boxes Demo.out.2).
  vm_compute; reflexivity.
Defined.

Lemma forward_call_counts_witness :
  Demo.out = (Ret (Demo.frames, Demo.masks, Demo.boxes), Demo.out.2) /\
  exists new : list call,
    calls Demo.out.2 = calls Demo.w0 ++ new /\
    forall k : call_kind,
      count_kind k new
      = match k with
        | KLoad | KSetImage | KPredict | KResetImage => length Demo.masks
        | KDilate => length Demo.masks
        | KTracker | KSave => 1%nat
        | KInpaint => 0%nat
        end.
Proof.
  split; [vm_compute; reflexivity|].
  apply (forward_call_counts Demo.load Demo.sam Demo.tracker
           Demo.paths 0 [(1, 1)] [1] (Some 0) (Some 2) Demo.w0
           Demo.frames Demo.masks Demo.boxes Demo.out.2).
  vm_compute; reflexivity.
Defined.

Lemma forward_writes_only_mask_png_witness :
  "0.jpg" <> "mask.png" /\
  files Demo.out.2 !! "0.jpg" = files Demo.w0 !! "0.jpg".
Proof.
  split; [discriminate|].
  apply (forward_writes_only_mask_png Demo.load Demo.sam Demo.tracker
           Demo.paths 0 [(1, 1)] [1] (Some 0) (Some 2) Demo.w0 "0.jpg").
  discriminate.
Defined.

Lemma forward_key_predict_failure_witness :
  Demo.paths !! 0%nat = Some "0.jpg" /\
  Demo.load "0.jpg" = Ret (Demo.frame 10) /\
  Demo.sam_fails (Demo.frame 10) (point_prompt [(1, 1)] [1])
    = Raise (ExternalError "predict") /\
  forward Demo.load Demo.sam_fails Demo.tracker
          Demo.paths 0 [(1, 1)] [1] (Some 0) (Some 2) Demo.w0
  = (Raise (ExternalError "predict"),
     {| sam_image := Some (Demo.frame 10); files := files Demo.w0;
        calls := calls Demo.w0
                 ++ [CallLoad "0.jpg"; CallSetImage (Demo.frame 10);
                     CallPredict (point_prompt [(1, 1)] [1])] |}).
Proof.
  repeat (split; [reflexivity|]).
  apply (forward_key_predict_failure Demo.load Demo.sam_fails Demo.tracker
           Demo.paths [(1, 1)] [1] (Some 0) (Some 2) Demo.w0
           "0.jpg" (Demo.frame 10) (ExternalError "predict"));
    reflexivity.
Defined.

Lemma forward_second_predict_failure_witness :
  key_frame_stage Demo.load Demo2.sam_fails_on_boxes Demo.paths 0
                  [(1, 1)] [1] (Some 0) (Some 2) Demo.w0
    = (Ret (Demo.frame 10, binarize Demo.full),
       (key_frame_stage Demo.load Demo2.sam_fails_on_boxes Demo.paths 0
                        [(1, 1)] [1] (Some 0) (Some 2) Demo.w0).2) /\
  Demo.tracker Demo.paths (get_box_from_mask (binarize Demo.full))
    = Ret Demo.boxes /\
  Demo.paths !! 1%nat = Some "1.jpg" /\
  Demo.boxes !! 1%nat = Some (1, 0, 2, 2) /\
  Demo.load "1.jpg" = Ret (Demo.frame 20) /\
  Demo2.sam_fails_on_boxes (Demo.frame 20)
      (box_prompt (sam_box_of (1, 0, 2, 2)))
    = Raise (ExternalError "predict") /\
  exists w',
    forward Demo.load Demo2.sam_fails_on_boxes Demo.tracker
            Demo.paths 0 [(1, 1)] [1] (Some 0) (Some 2) Demo.w0
      = (Raise (ExternalError "predict"), w') /\
    sam_image w' = Some (Demo.frame 20) /\
    files w' !! "mask.png" = Some (binarize Demo.full).
Proof.
  split; [vm_compute; reflexivity|].
  repeat (split; [reflexivity|]).
  apply (forward_second_predict_failure Demo.load Demo2.sam_fails_on_boxes
           Demo.tracker Demo.paths 0 [(1, 1)] [1] (Some 0) (Some 2) Demo.w0
           (key_frame_stage Demo.load Demo2.sam_fails_on_boxes Demo.paths 0
                            [(1, 1)] [1] (Some 0) (Some 2) Demo.w0).2
           (Demo.frame 10) (binarize Demo.full) Demo.boxes
           "1.jpg" (1, 0, 2, 2) (Demo.frame 20) (ExternalError "predict"));
    first [reflexivity | vm_compute; reflexivity].
Defined.

Lemma mask_selection_returns_candidate_witness :
  mask_selection Demo.cands [] (Some (binarize Demo.top)) false
    = Ret (binarize Demo.top) /\
  false = false /\ binarize Demo.top ∈ Demo.cands.
Proof.
  split; [reflexivity|].
  apply (mask_selection_returns_candidate Demo.cands []
           (Some (binarize Demo.top)) false (binarize Demo.top)).
  reflexivity.
Defined.

Lemma mask_selection_shape_mismatch_witness :
  has_shape 2 2 (binarize Demo.full) /\ has_shape 3 2 Demo2.tall /\
  2%nat <> 3%nat /\ 2%nat <> 1%nat /\ 3%nat <> 1%nat /\
  mask_selection [binarize Demo.full; binarize Demo.top] []
                 (Some Demo2.tall) false = Raise ValueError.
Proof.
  assert (has_shape 2 2 (binarize Demo.full)) as H1 by repeat constructor.
  assert (has_shape 3 2 Demo2.tall) as H2 by repeat constructor.
  repeat (split; [first [assumption | lia]|]).
  apply (mask_selection_shape_mismatch 2 2 3 2 (binarize Demo.full)
           [binarize Demo.top] [] Demo2.tall H1 H2); lia.
Defined.

Lemma forward_scores_unused_witness :
  same_masks Demo.sam Demo2.sam_rescored /\
  forward Demo.load Demo.sam Demo.tracker
          Demo.paths 0 [(1, 1)] [1] (Some 0) (Some 2) Demo.w0
  = forward Demo.load Demo2.sam_rescored Demo.tracker
            Demo.paths 0 [(1, 1)] [1] (Some 0) (Some 2) Demo.w0.
Proof.
  assert (same_masks Demo.sam Demo2.sam_rescored) as Hs.
  { intros img pr. unfold Demo2.sam_rescored, Demo.sam.
    destruct (box pr); reflexivity. }
  split; [exact Hs|].
  apply (forward_scores_unused Demo.load Demo.tracker Demo.sam
           Demo2.sam_rescored Demo.paths 0 [(1, 1)] [1] 0 (Some 2) Demo.w0 Hs).
Defined.

Lemma forward_key_mask_by_score_witness :
  Demo2.out_auto
    = (Ret (Demo.frames, Demo2.masks_auto, Demo2.boxes_auto),
       Demo2.out_auto.2) /\
  exists (kf : Image) (kms : list BoolMask) (kss : list Q)
         (idx : nat) (m : BoolMask) (s : Q) (m0 : Mask),
    Demo.frames !! 0%nat = Some kf /\
    Demo.sam kf (point_prompt [(1, 1)] [1]) = Ret (kms, kss) /\
    kms !! idx = Some m /\ kss !! idx = Some s /\
    (forall j x, kss !! j = Some x -> (x <= s)%Q) /\
    (forall j x, (j < idx)%nat -> kss !! j = Some x -> (x < s)%Q) /\
    Demo2.masks_auto !! 0%nat = Some m0 /\
    dilated None (binarize m) = Ret m0.
Proof.
  split; [vm_compute; reflexivity|].
  apply (forward_key_mask_by_score Demo.load Demo.tracker Demo.sam
           Demo.paths 0 [(1, 1)] [1] None Demo.w0
           Demo.frames Demo2.masks_auto Demo2.boxes_auto Demo2.out_auto.2).
  vm_compute; reflexivity.
Defined.

Lemma init_Ret_iff_witness :
  bind_kwargs default_tracker_build_args = Ret default_tracker_build_args /\
  bind_kwargs default_segmentor_build_args
    = Ret default_segmentor_build_args /\
  bind_kwargs default_inpainter_build_args
    = Ret default_inpainter_build_args /\
  init Demo2.build_tracker_ok Demo2.build_sam_ok Demo2.build_lama_ok
       "ostrack" None "sam" None "lama" None []
  = (Ret Demo2.self,
     [] ++ [BuildTracker default_tracker_build_args;
            BuildSegmentor default_segmentor_build_args;
            BuildInpainter default_inpainter_build_args]).
Proof.
  repeat (split; [vm_compute; reflexivity|]).
  apply (proj2 (init_Ret_iff Demo2.build_tracker_ok Demo2.build_sam_ok
                  Demo2.build_lama_ok "ostrack" None "sam" None "lama" None
                  [] _ Demo2.self)).
  repeat (split; [first [reflexivity | vm_compute; reflexivity]|]).
  reflexivity.
Defined.

Lemma init_unsupported_target_witness :
  bind_kwargs default_tracker_build_args = Ret default_tracker_build_args /\
  bind_kwargs default_segmentor_build_args
    = Ret default_segmentor_build_args /\
  bind_kwargs default_inpainter_build_args
    = Ret default_inpainter_build_args /\
  Demo2.build_tracker_ok default_tracker_build_args = Ret Demo.tracker /\
  "xmem" <> "sam" /\
  init Demo2.build_tracker_ok Demo2.build_sam_ok Demo2.build_lama_ok
       "ostrack" (Some default_tracker_build_args)
       "xmem" (Some default_segmentor_build_args)
       "lama" (Some default_inpainter_build_args) []
  = (Raise (AssertionError "Only support sam now."),
     [] ++ [BuildTracker default_tracker_build_args]).
Proof.
  assert (bind_kwargs default_tracker_build_args
          = Ret default_tracker_build_args) as H1
    by (vm_compute; reflexivity).
  assert (bind_kwargs default_segmentor_build_args
          = Ret default_segmentor_build_args) as H2
    by (vm_compute; reflexivity).
  assert (bind_kwargs default_inpainter_build_args
          = Ret default_inpainter_build_args) as H3
    by (vm_compute; reflexivity).
  repeat (split; [first [assumption | reflexivity | discriminate]|]).
  apply (proj1 (proj2 (init_unsupported_target Demo2.build_tracker_ok
                         Demo2.build_sam_ok Demo2.build_lama_ok
                         "ostrack" default_tracker_build_args
                         "xmem" default_segmentor_build_args
                         "lama" default_inpainter_build_args []
                         Demo.tracker Demo.sam H1 H2 H3)));
    first [reflexivity | discriminate].
Defined.

Lemma forward_masks_from_candidates_witness :
  Demo.out = (Ret (Demo.frames, Demo.masks, Demo.boxes), Demo.out.2) /\
  Demo.masks !! 1%nat = Some (binarize Demo.full) /\
  exists (frame : Image) (pr : Prompt) (cands : list BoolMask)
         (scores : list Q) (c : BoolMask),
    Demo.frames !! 1%nat = Some frame /\
    Demo.sam frame pr = Ret (cands, scores) /\
    c ∈ cands /\ dilated (Some 2) (binarize c) = Ret (binarize Demo.full).
Proof.
  split; [vm_compute; reflexivity|]. split; [reflexivity|].
  apply (forward_masks_from_candidates Demo.load Demo.tracker Demo.sam
           Demo.paths 0 [(1, 1)] [1] (Some 0) (Some 2) Demo.w0
           Demo.frames Demo.masks Demo.boxes Demo.out.2).
  - vm_compute; reflexivity.
  - reflexivity.
Defined.

Lemma forward_masks_shape_witness :
  (forall img pr cands scores,
     Demo.sam img pr = Ret (cands, scores) ->
     Forall (has_shape 2 2) cands) /\
  Demo.out = (Ret (Demo.frames, Demo.masks, Demo.boxes), Demo.out.2) /\
  Forall (has_shape 2 2) Demo.masks.
Proof.
  assert (forall img pr cands scores,
            Demo.sam img pr = Ret (cands, scores) ->
            Forall (has_shape 2 2) cands) as Hs.
  { intros img pr cands scores. unfold Demo.sam.
    destruct (box pr); intros [= <- _]; repeat constructor. }
  split; [exact Hs|]. split; [vm_compute; reflexivity|].
  apply (forward_masks_shape Demo.load Demo.tracker Demo.sam 2 2
           Demo.paths 0 [(1, 1)] [1] (Some 0) (Some 2) Demo.w0
           Demo.frames Demo.masks Demo.boxes Demo.out.2 Hs).
  vm_compute; reflexivity.
Defined.
